(** * demcmc.emission: contribution functions and predicted line intensities

    A shallow embedding of [src/demcmc/emission.py].

    Conventions of the embedding.
    - Array magnitudes are numpy [float64] values.  In the main model they
      are idealised as real numbers ([R]); the one non-real value the code
      can produce from real inputs, the not-a-number of an empty group mean
      or of [0/0], is the constructor [NaN] of [fval], and the underflow of
      [np.exp] to 0 is written out.  This model leaves out the rounding of
      arithmetic results.  Where rounding decides which branch the code
      takes, in the edge check and the binning of a table and a grid
      written in different units, the module [Binary64] embeds the same
      methods on binary64 numbers.
    - An [astropy] unit is a decimal scale together with integer exponents of
      the base dimensions, which covers [cm], [K], [MK] and their products and
      powers.
    - An exception is a constructor of [exception]; a method body is written
      in a state-and-error monad over the receiving instance. *)

From Stdlib Require Import PrimFloat.
From Stdlib Require Uint63.
From Stdlib Require Import Reals Lra Lia List ZArith Bool Arith Sorted
  Permutation.
Import ListNotations.

Open Scope R_scope.

(** ** Floating values with not-a-number *)

Inductive fval : Type :=
| Fin (r : R)
| NaN.

Definition fmul (a b : fval) : fval :=
  match a, b with
  | Fin x, Fin y => Fin (x * y)
  | _, _ => NaN
  end.

Definition fadd (a b : fval) : fval :=
  match a, b with
  | Fin x, Fin y => Fin (x + y)
  | _, _ => NaN
  end.

Definition Rltb (x y : R) : bool := if Rlt_dec x y then true else false.
Definition Rleb (x y : R) : bool := if Rle_dec x y then true else false.
Definition Reqb (x y : R) : bool := if Req_dec_T x y then true else false.

(** ** The fragment of astropy.units the module uses *)

Module Units.

(** Exponents of the base dimensions of a unit. *)
Record Dim : Type := mkDim {
  d_length : Z;
  d_temperature : Z;
  d_mass : Z;
  d_time : Z
}.

Definition dim_eqb (a b : Dim) : bool :=
  (d_length a =? d_length b)%Z && (d_temperature a =? d_temperature b)%Z
  && (d_mass a =? d_mass b)%Z && (d_time a =? d_time b)%Z.

Definition dim_mul (a b : Dim) : Dim :=
  mkDim (d_length a + d_length b) (d_temperature a + d_temperature b)
        (d_mass a + d_mass b) (d_time a + d_time b).

Definition dim_pow (a : Dim) (n : Z) : Dim :=
  mkDim (d_length a * n) (d_temperature a * n) (d_mass a * n) (d_time a * n).

Definition dim_zero : Dim := mkDim 0 0 0 0.

(** A unit: [10 ^ exp10] times the product of the base units (cm, K, g, s)
    raised to the exponents of [dims]. *)
Record Unit : Type := mkUnit {
  exp10 : Z;
  dims : Dim
}.

Definition cm : Unit := mkUnit 0 (mkDim 1 0 0 0).
Definition K : Unit := mkUnit 0 (mkDim 0 1 0 0).
Definition MK : Unit := mkUnit 6 (mkDim 0 1 0 0).
Definition dimensionless_unscaled : Unit := mkUnit 0 dim_zero.

Definition umul (a b : Unit) : Unit :=
  mkUnit (exp10 a + exp10 b) (dim_mul (dims a) (dims b)).
Definition upow (a : Unit) (n : Z) : Unit :=
  mkUnit (exp10 a * n) (dim_pow (dims a) n).
Definition udiv (a b : Unit) : Unit := umul a (upow b (-1)).

(** [u.cm**5 / u.K] *)
Definition cm5_per_K : Unit := udiv (upow cm 5) K.

(** The factor that turns a magnitude in unit [a] into one in unit [b]. *)
Definition factor (a b : Unit) : R := powerRZ 10 (exp10 a - exp10 b).

(** A quantity: a magnitude (scalar or array) and its unit. *)
Record Quantity (A : Type) : Type := mkQuantity {
  value : A;
  unit : Unit
}.
Arguments mkQuantity {A} _ _.
Arguments value {A} _.
Arguments unit {A} _.

End Units.
Import Units.

(** ** Exceptions and results *)

Inductive exception : Type :=
| ValueError_temps_not_1D
| ValueError_values_not_1D
| ValueError_size_mismatch
| ValueError_missing_bin_edges (missing_ts : list (Quantity R))
| ValueError_missing_bin_edges_binary64 (missing_ts : list (Quantity float))
| UnitConversionError (src dst : Unit)
| ValueError_broadcast (n m : nat)
| ValueError_frame_columns
| ValueError_bins_not_monotonic
| ValueError_bins_not_unique
| IndexError_no_bins.

Inductive result (A : Type) : Type :=
| Ok (a : A)
| Err (e : exception).
Arguments Ok {A} _.
Arguments Err {A} _.

(** A method of a class whose instances have type [S]: it runs on the
    receiving instance and hands back a result or an exception together with
    the instance as the call left it. *)
Definition method (S A : Type) : Type := S -> result A * S.

Definition ret {S A} (a : A) : method S A := fun s => (Ok a, s).
Definition raise {S A} (e : exception) : method S A := fun s => (Err e, s).
Definition lift {S A} (r : result A) : method S A := fun s => (r, s).
Definition getattr {S A} (f : S -> A) : method S A := fun s => (Ok (f s), s).
Definition bind {S A B} (m : method S A) (k : A -> method S B) : method S B :=
  fun s =>
    match m s with
    | (Ok a, s') => k a s'
    | (Err e, s') => (Err e, s')
    end.

Declare Scope method_scope.
Delimit Scope method_scope with method.
Notation "x <- m ;; k" := (bind m (fun x => k))
  (at level 61, m at next level, right associativity) : method_scope.
Notation "m ;;; k" := (bind m (fun _ => k))
  (at level 61, right associativity) : method_scope.

(** The same sequencing for code that has no receiving instance yet
    (constructors). *)
Definition and_then {A B} (r : result A) (k : A -> result B) : result B :=
  match r with
  | Ok a => k a
  | Err e => Err e
  end.

(** ** numpy arrays and the numpy operations the module calls *)

Module Numpy.

(** An array as the code observes it: its number of dimensions and its
    elements laid out flat.  [size] is the number of elements. *)
Record ndarray : Type := mkArray {
  ndim : nat;
  data : list R
}.

Definition size (a : ndarray) : nat := length (data a).

(** A one-dimensional array holding the elements of [l]. *)
Definition array1 (l : list R) : ndarray := mkArray 1 l.

(** [np.diff]: differences of consecutive elements. *)
Fixpoint diff (l : list R) : list R :=
  match l with
  | a :: (b :: _) as t => (b - a) :: diff t
  | _ => []
  end.

(** [np.sum] of a one-dimensional array. *)
Definition sum (l : list fval) : fval := fold_right fadd (Fin 0) l.

Definition Rsum (l : list R) : R := fold_right Rplus 0 l.

(** Elementwise product of two one-dimensional arrays with numpy's
    broadcasting: equal lengths, or one of the two of length one. *)
Definition multiply (xs ys : list fval) : result (list fval) :=
  if (length xs =? length ys)%nat then
    Ok (map (fun p => fmul (fst p) (snd p)) (combine xs ys))
  else
    match xs, ys with
    | [x], _ => Ok (map (fun y => fmul x y) ys)
    | _, [y] => Ok (map (fun x => fmul x y) xs)
    | _, _ => Err (ValueError_broadcast (length xs) (length ys))
    end.

(** [np.searchsorted(bins, x, side="left")] on increasing [bins]: the index
    of the first bin that is not below [x]. *)
Fixpoint searchsorted_left (bins : list R) (x : R) : nat :=
  match bins with
  | [] => 0
  | b :: bs => if Rlt_dec b x then S (searchsorted_left bs x) else 0
  end.

(** The distinct elements of [l]. *)
Definition unique (l : list R) : list R := nodup Req_dec_T l.

(** [np.exp] on binary64.  The exponential of [x] rounds to exactly 0 once
    it is at most half the smallest positive binary64 number, [2^-1075],
    that is for [x <= -1075 ln 2] (about -745.13); above that it is taken
    as the real exponential. *)
Definition np_exp (x : R) : R :=
  if Rle_dec x (- (1075 * ln 2)) then 0 else exp x.

End Numpy.

(** ** Quantities: conversion, comparison, arithmetic *)

Module Quantities.
Import Numpy.

(** Magnitudes that a conversion factor can be applied to. *)
Class Scalable (A : Type) : Type := scale_by : R -> A -> A.

#[export] Instance Scalable_R : Scalable R := fun k x => x * k.
#[export] Instance Scalable_list : Scalable (list R) :=
  fun k l => map (fun x => x * k) l.
#[export] Instance Scalable_ndarray : Scalable ndarray :=
  fun k a => mkArray (ndim a) (map (fun x => x * k) (data a)).
#[export] Instance Scalable_fval : Scalable fval :=
  fun k x => fmul x (Fin k).

(** [q.to_value(target)]: the magnitude expressed in [target]; a
    [UnitConversionError] when the two units differ in dimension.  The
    scale is the exact power of ten here, which is what astropy computes
    when the two units are the same (scale 1, magnitude untouched); between
    different units astropy multiplies by a binary64 scale and rounds, see
    [Binary64.convert]. *)
Definition to_value {A} `{Scalable A} (q : Quantity A) (target : Unit)
  : result A :=
  if dim_eqb (dims (unit q)) (dims target)
  then Ok (scale_by (factor (unit q) target) (value q))
  else Err (UnitConversionError (unit q) target).

(** [t in arr] for a scalar quantity [t] and an array quantity [arr]:
    [(arr == t).any()], where [==] expresses [t] in the unit of [arr] and
    is false everywhere when that conversion is impossible.  With the
    exact conversion of [to_value]: the comparison the code makes when [t]
    and [arr] are in the same unit; see [Binary64.contains] otherwise. *)
Definition contains (arr : Quantity ndarray) (t : Quantity R) : bool :=
  match to_value t (unit arr) with
  | Ok t' => existsb (fun x => Reqb x t') (data (value arr))
  | Err _ => false
  end.

(** Iterating an array quantity yields scalar quantities of its unit. *)
Definition iter (q : Quantity (list R)) : list (Quantity R) :=
  map (fun x => mkQuantity x (unit q)) (value q).

(** A float array seen as values that may be not-a-number. *)
Definition as_float (q : Quantity (list R)) : Quantity (list fval) :=
  mkQuantity (map Fin (value q)) (unit q).

(** [a * b] for two array quantities. *)
Definition mul (a b : Quantity (list fval)) : result (Quantity (list fval)) :=
  and_then (multiply (value a) (value b))
           (fun v => Ok (mkQuantity v (umul (unit a) (unit b)))).

(** [np.sum(q)] *)
Definition qsum (q : Quantity (list fval)) : Quantity fval :=
  mkQuantity (sum (value q)) (unit q).

End Quantities.

(** ** The pandas operations the module calls *)

Module Pandas.
Import Numpy.

(** [pd.DataFrame({"Temps": temps, "values": values}).set_index("Temps")]:
    the rows of the frame, index first.  Columns that are not
    one-dimensional or that differ in length cannot come from an instance
    built by [ContFuncDiscrete.__init__]; for them the model reports an
    error and does not follow what pandas does with such columns. *)
Definition DataFrame (temps values : ndarray) : result (list (R * R)) :=
  if ((ndim temps =? 1) && (ndim values =? 1)
      && (size temps =? size values))%nat
  then Ok (combine (data temps) (data values))
  else Err ValueError_frame_columns.

(** The interval [pd.cut] finds for one element [xi], given the edges
    [bins] and the lowest edge [b0]: [searchsorted] locates the element, an
    element equal to the lowest edge is sent to the first interval, and an
    element located before the first or after the last edge has no
    interval. *)
Definition locate (bins : list R) (b0 : R) (xi : R) : option nat :=
  let id := if Reqb xi b0 then 1%nat else searchsorted_left bins xi in
  if ((id =? length bins) || (id =? 0))%nat then None
  else Some (id - 1)%nat.

(** [pd.cut(x, bins, include_lowest=True)] with an array of bin edges and
    the default [right=True]: for each element of [x] the position of its
    interval among the [len(bins) - 1] categories, or [None] (no category).
    pandas refuses edges that decrease somewhere, and repeated edges unless
    there are exactly two edges. *)
Definition cut (x bins : list R) : result (list (option nat)) :=
  if existsb (fun d => Rltb d 0) (diff bins) then
    Err ValueError_bins_not_monotonic
  else if ((length (unique bins) <? length bins)
           && negb (length bins =? 2))%nat then
    Err ValueError_bins_not_unique
  else
    match bins with
    | [] => Err IndexError_no_bins
    | b0 :: _ => Ok (map (locate bins b0) x)
    end.

(** Number of categories of the result of [cut]. *)
Definition n_categories (bins : list R) : nat := (length bins - 1)%nat.

(** Whether a row's group is category [k]; a row without category is in
    no group. *)
Definition group_is (k : nat) (g : option nat) : bool :=
  match g with
  | Some j => (j =? k)%nat
  | None => false
  end.

(** The ["values"] entries of the rows whose group is category [k]. *)
Definition group (groups : list (option nat)) (vals : list R) (k : nat)
  : list R :=
  map snd (filter (fun p => group_is k (fst p)) (combine groups vals)).

(** Mean of a group; an empty group has not-a-number as its mean. *)
Definition mean (l : list R) : fval :=
  match l with
  | [] => NaN
  | _ => Fin (Rsum l / INR (length l))
  end.

(** [df.groupby("Groups").mean()["values"].values] for a categorical
    grouping column: one mean per category, in category order, empty
    categories included (pandas' default [observed=False] when the module
    was written). *)
Definition groupby_mean (ncat : nat) (groups : list (option nat))
  (vals : list R) : list fval :=
  map (fun k => mean (group groups vals k)) (seq 0 ncat).

End Pandas.

(** ** demcmc.dem: temperature bins and binned DEMs *)

Module Dem.
Import Numpy Quantities.

(** Modelled from the spec: the class [TempBins] of [demcmc.dem], which is
    not part of the sources at hand.  It exposes [edges], N+1 ordered
    temperature boundaries, from which the N bin centers (midpoints) and the
    N bin widths (extents) derive. *)
Record TempBins : Type := mkTempBins {
  edges : Quantity (list R)
}.

Fixpoint midpoints (l : list R) : list R :=
  match l with
  | a :: (b :: _) as t => ((a + b) / 2) :: midpoints t
  | _ => []
  end.

(** Modelled from the spec: the midpoints of consecutive edges, in the unit
    of the edges. *)
Definition bin_centers (tb : TempBins) : Quantity (list R) :=
  mkQuantity (midpoints (value (edges tb))) (unit (edges tb)).

(** Modelled from the spec: the extents of the bins, in the unit of the
    edges. *)
Definition bin_widths (tb : TempBins) : Quantity (list R) :=
  mkQuantity (diff (value (edges tb))) (unit (edges tb)).

(** Modelled from the spec: the bin centers expressed in MK, which
    [TempBins] keeps at hand. *)
Definition _bin_centers_MK (tb : TempBins) : list R :=
  scale_by (factor (unit (edges tb)) MK) (value (bin_centers tb)).

(** Number of bins of a grid. *)
Definition n_bins (tb : TempBins) : nat := (length (value (edges tb)) - 1)%nat.

(** Modelled from the spec: what a grid promises to its users: its edges
    are temperatures, there is at least one, and they are in strictly
    increasing order. *)
Definition well_formed (tb : TempBins) : Prop :=
  dims (unit (edges tb)) = dims K
  /\ value (edges tb) <> []
  /\ StronglySorted Rlt (value (edges tb)).

(** Modelled from the spec: the class [BinnedDEM] of [demcmc.dem]: a grid
    and one DEM value per bin. *)
Record BinnedDEM : Type := mkBinnedDEM {
  temp_bins : TempBins;
  values : Quantity (list R)
}.

End Dem.

(** ** demcmc.emission *)

Module ContFuncGaussian.
Import Numpy Quantities Dem.
Local Open Scope method_scope.

Record t : Type := mk {
  width : Quantity R;
  center : Quantity R;
  _width_MK : R;
  _center_MK : R
}.

Definition __init__ (center width : Quantity R) : result t :=
  and_then (to_value width MK) (fun width_MK =>
  and_then (to_value center MK) (fun center_MK =>
  Ok (mk width center width_MK center_MK))).

(** [np.exp(-(((center - c) / width) ** 2)) * 1e6] at one bin center [c].
    numpy does not raise on a division by zero: for a zero width the
    quotient is infinite and the exponential of minus infinity is zero,
    unless the numerator is zero too, where the quotient is not-a-number.
    Far from the center the exponential underflows to 0 ([np_exp]). *)
Definition profile (center_MK width_MK c : R) : fval :=
  if Req_dec_T width_MK 0 then
    if Req_dec_T (center_MK - c) 0 then NaN else Fin (0 * 1e6)
  else Fin (np_exp (- (((center_MK - c) / width_MK) ^ 2)) * 1e6).

Definition binned (temp_bins : TempBins) : method t (Quantity (list fval)) :=
  bins <- lift (to_value (bin_centers temp_bins) MK) ;;
  center_MK <- getattr _center_MK ;;
  width_MK <- getattr _width_MK ;;
  ret (mkQuantity (map (profile center_MK width_MK) (_bin_centers_MK temp_bins))
                  cm5_per_K).

End ContFuncGaussian.

Module ContFuncDiscrete.
Import Numpy Quantities Pandas Dem.
Local Open Scope method_scope.

Record t : Type := mk {
  temps : Quantity ndarray;
  values : Quantity ndarray
}.

Definition __init__ (temps values : Quantity ndarray) : result t :=
  if negb (ndim (value temps) =? 1)%nat then Err ValueError_temps_not_1D
  else if negb (ndim (value values) =? 1)%nat then Err ValueError_values_not_1D
  else if negb (size (value temps) =? size (value values))%nat
       then Err ValueError_size_mismatch
  else Ok (mk temps values).

(** The loop of [_check_bin_edges]: the edges that are not among [temps],
    in the order of the grid. *)
Fixpoint missing_edges (temps : Quantity ndarray) (ts : list (Quantity R))
  : list (Quantity R) :=
  match ts with
  | [] => []
  | t :: rest =>
      if negb (contains temps t) then t :: missing_edges temps rest
      else missing_edges temps rest
  end.

Definition _check_bin_edges (temp_bins : TempBins) : method t Datatypes.unit :=
  temps <- getattr temps ;;
  let missing_ts := missing_edges temps (iter (edges temp_bins)) in
  if negb (length missing_ts =? 0)%nat
  then raise (ValueError_missing_bin_edges missing_ts)
  else ret tt.

Definition binned (temp_bins : TempBins) : method t (Quantity (list fval)) :=
  _check_bin_edges temp_bins ;;;
  temps <- getattr temps ;;
  values <- getattr values ;;
  temps_K <- lift (to_value temps K) ;;
  values_u <- lift (to_value values cm5_per_K) ;;
  df <- lift (DataFrame temps_K values_u) ;;
  edges_K <- lift (to_value (edges temp_bins) K) ;;
  groups <- lift (cut (map fst df) edges_K) ;;
  let means := groupby_mean (n_categories edges_K) groups (map snd df) in
  ret (mkQuantity means cm5_per_K).

End ContFuncDiscrete.

Module ContFunc.
Import Dem.

(** The two implementations of the abstract class [ContFunc]. *)
Inductive t : Type :=
| Gaussian (g : ContFuncGaussian.t)
| Discrete (d : ContFuncDiscrete.t).

(** [cont_func.binned(temp_bins)], dispatched on the class of the
    instance. *)
Definition binned (temp_bins : TempBins) : method t (Quantity (list fval)) :=
  fun self =>
    match self with
    | Gaussian g =>
        let (r, g') := ContFuncGaussian.binned temp_bins g in (r, Gaussian g')
    | Discrete d =>
        let (r, d') := ContFuncDiscrete.binned temp_bins d in (r, Discrete d')
    end.

End ContFunc.

Module EmissionLine.
Import Numpy Quantities Dem.
Local Open Scope method_scope.

Record t : Type := mk {
  cont_func : ContFunc.t;
  intensity_obs : option R;
  sigma_intensity_obs : option R
}.

(** A method call on the object held in the attribute [cont_func]. *)
Definition on_cont_func {A} (m : method ContFunc.t A) : method t A :=
  fun self =>
    let (r, cf') := m (cont_func self) in
    (r, mk cf' (intensity_obs self) (sigma_intensity_obs self)).

Definition I_pred (dem : BinnedDEM) : method t fval :=
  cont_func <- on_cont_func (ContFunc.binned (temp_bins dem)) ;;
  prod <- lift (mul cont_func (as_float (Dem.values dem))) ;;
  prod <- lift (mul prod (as_float (bin_widths (temp_bins dem)))) ;;
  let ret := qsum prod in
  lift (to_value ret dimensionless_unscaled).

End EmissionLine.

(** An ordered collection of emission lines. *)
Record LineCollection : Type := mkLineCollection {
  lines : list EmissionLine.t
}.

(** ** The discrete contribution function on binary64 numbers

    The same methods as in [ContFuncDiscrete], with the magnitudes as the
    binary64 numbers numpy holds and the unit conversions as astropy
    performs them, one rounded multiplication by the ratio of the scales.
    Conversions between decimal multiples of one unit are covered (K, MK),
    not the decomposition of composite units into SI bases. *)

Module Binary64.

Record ndarray : Type := mkArray {
  ndim : nat;
  data : list float
}.

Definition size (a : ndarray) : nat := length (data a).

Definition array1 (l : list float) : ndarray := mkArray 1 l.

(** The scale astropy holds for a decimal prefix, [10 ^ z] as a binary64
    number: [1e6] for [MK], [1.0] for [K]. *)
Fixpoint pow10_nat (n : nat) : float :=
  match n with
  | O => 1
  | S m => (10 * pow10_nat m)%float
  end.

Definition pow10 (z : Z) : float :=
  if (0 <=? z)%Z then pow10_nat (Z.to_nat z)
  else (1 / pow10_nat (Z.to_nat (- z)))%float.

(** [a._to(b)]: the ratio of the two scales. *)
Definition scale (a b : Unit) : float :=
  (pow10 (exp10 a) / pow10 (exp10 b))%float.

(** The conversion of one magnitude: untouched when the scale is 1,
    multiplied by the scale otherwise. *)
Definition convert (a b : Unit) (x : float) : float :=
  if (scale a b =? 1)%float then x else (x * scale a b)%float.

(** [q.to_value(target)] for a scalar, a sequence and an array. *)
Definition to_value_scalar (q : Quantity float) (target : Unit)
  : result float :=
  if Units.dim_eqb (dims (unit q)) (dims target)
  then Ok (convert (unit q) target (value q))
  else Err (UnitConversionError (unit q) target).

Definition to_value_list (q : Quantity (list float)) (target : Unit)
  : result (list float) :=
  if Units.dim_eqb (dims (unit q)) (dims target)
  then Ok (map (convert (unit q) target) (value q))
  else Err (UnitConversionError (unit q) target).

Definition to_value (q : Quantity ndarray) (target : Unit) : result ndarray :=
  if Units.dim_eqb (dims (unit q)) (dims target)
  then Ok (mkArray (ndim (value q))
                   (map (convert (unit q) target) (data (value q))))
  else Err (UnitConversionError (unit q) target).

(** [t in arr]: [(arr == t).any()], where [==] expresses [t] in the unit
    of [arr] and compares binary64 numbers; false everywhere when the
    conversion is impossible. *)
Definition contains (arr : Quantity ndarray) (t : Quantity float) : bool :=
  match to_value_scalar t (unit arr) with
  | Ok t' => existsb (fun x => (x =? t')%float) (data (value arr))
  | Err _ => false
  end.

Definition iter (q : Quantity (list float)) : list (Quantity float) :=
  map (fun x => mkQuantity x (unit q)) (value q).

(** Modelled from the spec: the class [TempBins] of [demcmc.dem], with
    binary64 edges. *)
Record TempBins : Type := mkTempBins {
  edges : Quantity (list float)
}.

Definition n_bins (tb : TempBins) : nat := (length (value (edges tb)) - 1)%nat.

(** The frame of [binned]; see [Pandas.DataFrame]. *)
Definition DataFrame (temps values : ndarray) : result (list (float * float)) :=
  if ((ndim temps =? 1) && (ndim values =? 1)
      && (size temps =? size values))%nat
  then Ok (combine (data temps) (data values))
  else Err ValueError_frame_columns.

Fixpoint diff (l : list float) : list float :=
  match l with
  | a :: (b :: _) as t => (b - a)%float :: diff t
  | _ => []
  end.

(** [bins.searchsorted(x, side="left")]: the number of edges below [x],
    on edges in increasing order, the only ones [cut] lets through. *)
Fixpoint searchsorted_left (bins : list float) (x : float) : nat :=
  match bins with
  | [] => 0
  | b :: bs => if (b <? x)%float then S (searchsorted_left bs x) else 0
  end.

Fixpoint unique (l : list float) : list float :=
  match l with
  | [] => []
  | x :: t => if existsb (fun y => (x =? y)%float) t then unique t
              else x :: unique t
  end.

Definition locate (bins : list float) (b0 : float) (xi : float) : option nat :=
  let id := if (xi =? b0)%float then 1%nat else searchsorted_left bins xi in
  if ((id =? length bins) || (id =? 0))%nat then None
  else Some (id - 1)%nat.

Definition cut (x bins : list float) : result (list (option nat)) :=
  if existsb (fun d => (d <? 0)%float) (diff bins) then
    Err ValueError_bins_not_monotonic
  else if ((length (unique bins) <? length bins)
           && negb (length bins =? 2))%nat then
    Err ValueError_bins_not_unique
  else
    match bins with
    | [] => Err IndexError_no_bins
    | b0 :: _ => Ok (map (locate bins b0) x)
    end.

Definition group (groups : list (option nat)) (vals : list float) (k : nat)
  : list float :=
  map snd (filter (fun p => Pandas.group_is k (fst p)) (combine groups vals)).

(** Mean of a group: the sum divided by the count, not-a-number for an
    empty group. *)
Definition mean (l : list float) : float :=
  match l with
  | [] => nan
  | _ => (fold_left PrimFloat.add l 0
          / of_uint63 (Uint63.of_Z (Z.of_nat (length l))))%float
  end.

Definition is_empty (l : list float) : bool :=
  match l with
  | [] => true
  | _ => false
  end.

(** [df.groupby("Groups").mean()["values"].values].  [observed] is the
    default of [groupby] for a categorical key: [False] before pandas 3.0,
    where every category gets an entry, and [True] from pandas 3.0, where
    the categories without rows are left out. *)
Definition groupby_mean (observed : bool) (ncat : nat)
  (groups : list (option nat)) (vals : list float) : list float :=
  let per_category := map (group groups vals) (seq 0 ncat) in
  map mean (if observed
            then filter (fun g => negb (is_empty g)) per_category
            else per_category).

Module ContFuncDiscrete.
Local Open Scope method_scope.

Record t : Type := mk {
  temps : Quantity ndarray;
  values : Quantity ndarray
}.

Definition __init__ (temps values : Quantity ndarray) : result t :=
  if negb (ndim (value temps) =? 1)%nat then Err ValueError_temps_not_1D
  else if negb (ndim (value values) =? 1)%nat then Err ValueError_values_not_1D
  else if negb (size (value temps) =? size (value values))%nat
       then Err ValueError_size_mismatch
  else Ok (mk temps values).

Fixpoint missing_edges (temps : Quantity ndarray) (ts : list (Quantity float))
  : list (Quantity float) :=
  match ts with
  | [] => []
  | t :: rest =>
      if negb (contains temps t) then t :: missing_edges temps rest
      else missing_edges temps rest
  end.

Definition _check_bin_edges (temp_bins : TempBins) : method t Datatypes.unit :=
  temps <- getattr temps ;;
  let missing_ts := missing_edges temps (iter (edges temp_bins)) in
  if negb (length missing_ts =? 0)%nat
  then raise (ValueError_missing_bin_edges_binary64 missing_ts)
  else ret tt.

Definition binned (observed : bool) (temp_bins : TempBins)
  : method t (Quantity (list float)) :=
  _check_bin_edges temp_bins ;;;
  temps <- getattr temps ;;
  values <- getattr values ;;
  temps_K <- lift (to_value temps K) ;;
  values_u <- lift (to_value values cm5_per_K) ;;
  df <- lift (DataFrame temps_K values_u) ;;
  edges_K <- lift (to_value_list (edges temp_bins) K) ;;
  groups <- lift (cut (map fst df) edges_K) ;;
  let means :=
    groupby_mean observed (length edges_K - 1) groups (map snd df) in
  ret (mkQuantity means cm5_per_K).

End ContFuncDiscrete.

(** Bin [k] of the grid with edges [es]: above edge [k] and not above edge
    [k+1]; the lowest bin also holds the lowest edge. *)
Definition in_bin (es : list float) (k : nat) (x : float) : bool :=
  ((nth k es 0 <? x) && negb (nth (S k) es 0 <? x))%float
  || ((k =? 0)%nat && (x =? nth 0 es 0)%float).

(** The sample points and the edges as [binned] hands them to pandas: each
    converted to K on its own. *)
Definition temps_K (cf : ContFuncDiscrete.t) : list float :=
  map (convert (unit (ContFuncDiscrete.temps cf)) K)
      (data (value (ContFuncDiscrete.temps cf))).

Definition edges_K (tb : TempBins) : list float :=
  map (convert (unit (edges tb)) K) (value (edges tb)).


End Binary64.

(** * Vocabulary of the specification *)

Import Numpy Quantities Pandas Dem.

(** The magnitudes of an array quantity expressed in unit [u]. *)
Definition magnitudes_in (q : Quantity Numpy.ndarray) (u : Unit) : list R :=
  map (fun x => x * factor (unit q) u) (Numpy.data (value q)).

(** The sample points of a discrete contribution function in K, each with
    its value in cm^5/K. *)
Definition samples (cf : ContFuncDiscrete.t) : list (R * R) :=
  combine (magnitudes_in (ContFuncDiscrete.temps cf) K)
          (magnitudes_in (ContFuncDiscrete.values cf) cm5_per_K).

(** The edges of a grid in K. *)
Definition edges_K (tb : Dem.TempBins) : list R :=
  map (fun x => x * factor (unit (Dem.edges tb)) K) (value (Dem.edges tb)).

(** Bin [k] of the grid with edges [es] as the specification describes it:
    the interval from edge [k], excluded, to edge [k+1], included; the
    lowest bin also holds the lowest edge. *)
Definition in_bin (es : list R) (k : nat) (x : R) : bool :=
  (Rltb (nth k es 0) x && Rleb x (nth (S k) es 0))
  || ((k =? 0)%nat && Reqb x (nth 0 es 0)).

(** The values of the samples that fall into bin [k]. *)
Definition bin_values (es : list R) (rows : list (R * R)) (k : nat) : list R :=
  map snd (filter (fun p => in_bin es k (fst p)) rows).


(** The contribution of one bin to the predicted intensity: binned
    contribution function times DEM value times bin width. *)
Definition bin_term (t : fval * R * R) : fval :=
  fmul (fmul (fst (fst t)) (Fin (snd (fst t)))) (Fin (snd t)).

(** The unit of the product that [I_pred] sums. *)
Definition product_unit (cont_func : Quantity (list fval)) (dem : BinnedDEM)
  : Unit :=
  umul (umul (unit cont_func) (unit (Dem.values dem)))
       (unit (bin_widths (temp_bins dem))).

(** * Examples of the specification *)

(** Sample points 1..5 K with values 10..50 cm^5/K. *)
Definition ex_discrete : ContFuncDiscrete.t :=
  ContFuncDiscrete.mk
    (mkQuantity (Numpy.array1 [1; 2; 3; 4; 5]) K)
    (mkQuantity (Numpy.array1 [10; 20; 30; 40; 50]) cm5_per_K).

(** The grid with edges 1, 3, 5 K. *)
Definition ex_grid : Dem.TempBins := Dem.mkTempBins (mkQuantity [1; 3; 5] K).

(** The grid with edges 1, 2.5, 5 K. *)
Definition ex_grid_missing : Dem.TempBins :=
  Dem.mkTempBins (mkQuantity [1; 2.5; 5] K).


(** A contribution function worth 7 cm^5/K at each of its sample points,
    a grid of two bins of width 1 K, and a line with that contribution
    function. *)
Definition ex_constant : ContFuncDiscrete.t :=
  ContFuncDiscrete.mk
    (mkQuantity (Numpy.array1 [1; 2; 3]) K)
    (mkQuantity (Numpy.array1 [7; 7; 7]) cm5_per_K).
Definition ex_grid_unit : Dem.TempBins :=
  Dem.mkTempBins (mkQuantity [1; 2; 3] K).
Definition ex_line : EmissionLine.t :=
  EmissionLine.mk (ContFunc.Discrete ex_constant) None None.

(** A DEM worth 2 cm^-5 in each bin, and one worth 2 cm^-5 K^-1. *)
Definition ex_dem : Dem.BinnedDEM :=
  Dem.mkBinnedDEM ex_grid_unit (mkQuantity [2; 2] (upow cm (-5))).
Definition ex_dem_per_K : Dem.BinnedDEM :=
  Dem.mkBinnedDEM ex_grid_unit (mkQuantity [2; 2] (udiv (upow cm (-5)) K)).

(** A Gaussian profile centered on 2 MK, of width 1 MK, and a grid in MK
    whose first bin is centered on 2 MK. *)
Definition ex_center : Quantity R := mkQuantity 2 MK.
Definition ex_width : Quantity R := mkQuantity 1 MK.
Definition ex_gaussian : ContFuncGaussian.t :=
  ContFuncGaussian.mk ex_width ex_center
    (Quantities.scale_by (factor MK MK) 1)
    (Quantities.scale_by (factor MK MK) 2).
Definition ex_grid_MK : Dem.TempBins :=
  Dem.mkTempBins (mkQuantity [1; 3; 5] MK).

(** The Gaussian profile of [ex_gaussian] and the grid of [ex_grid_MK],
    written in K. *)
Definition ex_center_K : Quantity R := mkQuantity 2000000 K.
Definition ex_width_K : Quantity R := mkQuantity 1000000 K.
Definition ex_gaussian_K : ContFuncGaussian.t :=
  ContFuncGaussian.mk ex_width_K ex_center_K
    (Quantities.scale_by (factor K MK) 1000000)
    (Quantities.scale_by (factor K MK) 2000000).
Definition ex_grid_K : Dem.TempBins :=
  Dem.mkTempBins (mkQuantity [1000000; 3000000; 5000000] K).

(** A grid whose edges are lengths. *)
Definition ex_grid_cm : Dem.TempBins :=
  Dem.mkTempBins (mkQuantity [1; 3; 5] cm).

(** The samples of [ex_discrete] in another order. *)
Definition ex_discrete_shuffled : ContFuncDiscrete.t :=
  ContFuncDiscrete.mk
    (mkQuantity (Numpy.array1 [3; 1; 5; 2; 4]) K)
    (mkQuantity (Numpy.array1 [30; 10; 50; 20; 40]) cm5_per_K).

(** The samples of [ex_discrete] with the temperatures written in MK, and
    the grid of [ex_grid] written in MK. *)
Definition ex_discrete_MK : ContFuncDiscrete.t :=
  ContFuncDiscrete.mk
    (mkQuantity (Numpy.array1 [0.000001; 0.000002; 0.000003; 0.000004;
                               0.000005]) MK)
    (mkQuantity (Numpy.array1 [10; 20; 30; 40; 50]) cm5_per_K).
Definition ex_grid_small_MK : Dem.TempBins :=
  Dem.mkTempBins (mkQuantity [0.000001; 0.000003; 0.000005] MK).

(** Another DEM on the grid of [ex_dem], one holding a single value, and
    one holding three values for the two bins. *)
Definition ex_dem_other : Dem.BinnedDEM :=
  Dem.mkBinnedDEM ex_grid_unit (mkQuantity [1; 3] (upow cm (-5))).
Definition ex_dem_single : Dem.BinnedDEM :=
  Dem.mkBinnedDEM ex_grid_unit (mkQuantity [2] (upow cm (-5))).
Definition ex_dem_three : Dem.BinnedDEM :=
  Dem.mkBinnedDEM ex_grid_unit (mkQuantity [2; 2; 2] (upow cm (-5))).

(** The grid whose edges are the sample points of [ex_discrete]. *)
Definition ex_grid_own : Dem.TempBins :=
  Dem.mkTempBins (mkQuantity [1; 2; 3; 4; 5] K).

(** A line with the Gaussian profile of [ex_gaussian] and a DEM worth
    2 cm^-5 in each bin of [ex_grid_MK]. *)
Definition ex_line_gaussian : EmissionLine.t :=
  EmissionLine.mk (ContFunc.Gaussian ex_gaussian) None None.
Definition ex_dem_MK : Dem.BinnedDEM :=
  Dem.mkBinnedDEM ex_grid_MK (mkQuantity [2; 2] (upow cm (-5))).

(** A Gaussian profile centered on 2 MK, of width 0.01 MK, and the grid
    with edges 1, 3, 5, 7 MK. *)
Definition ex_width_narrow : Quantity R := mkQuantity 0.01 MK.
Definition ex_gaussian_narrow : ContFuncGaussian.t :=
  ContFuncGaussian.mk ex_width_narrow ex_center
    (Quantities.scale_by (factor MK MK) 0.01)
    (Quantities.scale_by (factor MK MK) 2).
Definition ex_grid_wide_MK : Dem.TempBins :=
  Dem.mkTempBins (mkQuantity [1; 3; 5; 7] MK).

(** ** Examples on binary64 numbers *)

Set Warnings "-inexact-float".

(** Sample points 1..5 K with values 10..50 cm^5/K. *)
Definition ex64_discrete : Binary64.ContFuncDiscrete.t :=
  Binary64.ContFuncDiscrete.mk
    (mkQuantity (Binary64.array1 [1; 2; 3; 4; 5]%float) K)
    (mkQuantity (Binary64.array1 [10; 20; 30; 40; 50]%float) cm5_per_K).

(** The grid with edges 1, 3, 5 K. *)
Definition ex64_grid : Binary64.TempBins :=
  Binary64.mkTempBins (mkQuantity [1; 3; 5]%float K).

(** The grid with edges 1, 2.5, 5 K. *)
Definition ex64_grid_missing : Binary64.TempBins :=
  Binary64.mkTempBins (mkQuantity [1; 2.5; 5]%float K).

(** Sample points 0.1, 0.2, 0.3 MK with values 10, 20, 30 cm^5/K. *)
Definition ex64_discrete_tenths_MK : Binary64.ContFuncDiscrete.t :=
  Binary64.ContFuncDiscrete.mk
    (mkQuantity (Binary64.array1 [0.1; 0.2; 0.3]%float) MK)
    (mkQuantity (Binary64.array1 [10; 20; 30]%float) cm5_per_K).

(** The grid with edges 100000, 300000 K: 0.1 MK and 0.3 MK. *)
Definition ex64_grid_tenths_K : Binary64.TempBins :=
  Binary64.mkTempBins (mkQuantity [100000; 300000]%float K).

(** The same table written in K: sample points 100000, 200000, 300000 K. *)
Definition ex64_discrete_tenths_K : Binary64.ContFuncDiscrete.t :=
  Binary64.ContFuncDiscrete.mk
    (mkQuantity (Binary64.array1 [100000; 200000; 300000]%float) K)
    (mkQuantity (Binary64.array1 [10; 20; 30]%float) cm5_per_K).

(** The same grid written in MK: edges 0.1, 0.3 MK. *)
Definition ex64_grid_tenths_MK : Binary64.TempBins :=
  Binary64.mkTempBins (mkQuantity [0.1; 0.3]%float MK).



(** * Properties *)

(** Tactics for the concrete examples: decide the comparisons of real
    constants one by one, after unfolding the unit conversions. *)
Ltac decide_reals :=
  repeat match goal with
         | |- context [Req_dec_T ?a ?b] => destruct (Req_dec_T a b); try lra
         | |- context [Rlt_dec ?a ?b] => destruct (Rlt_dec a b); try lra
         | |- context [Rle_dec ?a ?b] => destruct (Rle_dec a b); try lra
         end.

Ltac unfold_units :=
  unfold contains, to_value, scale_by, Scalable_R, Scalable_list,
    Scalable_ndarray, Scalable_fval, factor, iter, as_float;
  cbn -[Rmult Rplus Rminus Rdiv Rinv Ropp IZR Rlt_dec Rle_dec Req_dec_T exp].

Ltac unfold_bins :=
  unfold n_bins, bin_values, samples, edges_K, magnitudes_in, in_bin, mean,
    Rsum, factor, Rltb, Rleb, Reqb;
  cbn -[Rmult Rplus Rminus Rdiv Rinv Ropp IZR Rlt_dec Rle_dec Req_dec_T exp INR].

(** ** Units *)

Lemma dim_eqb_eq (a b : Dim) : dim_eqb a b = true <-> a = b.
Proof.
  unfold dim_eqb. rewrite !andb_true_iff, !Z.eqb_eq.
  destruct a, b; simpl. split.
  - intros [[[-> ->] ->] ->]. reflexivity.
  - intros H. injection H as -> -> -> ->. auto.
Qed.

Lemma dim_eqb_refl (a : Dim) : dim_eqb a a = true.
Proof. apply dim_eqb_eq. reflexivity. Qed.

Lemma factor_pos (a b : Unit) : 0 < factor a b.
Proof. unfold factor. apply powerRZ_lt. lra. Qed.

Lemma to_value_ok {A} `{Scalable A} (q : Quantity A) (target : Unit) :
  dims (unit q) = dims target ->
  to_value q target = Ok (scale_by (factor (unit q) target) (value q)).
Proof.
  intros E. unfold to_value. rewrite E, dim_eqb_refl. reflexivity.
Qed.

Lemma to_value_err {A} `{Scalable A} (q : Quantity A) (target : Unit) :
  dims (unit q) <> dims target ->
  to_value q target = Err (UnitConversionError (unit q) target).
Proof.
  intros E. unfold to_value.
  destruct (dim_eqb (dims (unit q)) (dims target)) eqn:D; [|reflexivity].
  apply dim_eqb_eq in D. contradiction.
Qed.

(** ** Grids *)

Lemma length_midpoints (l : list R) : length (midpoints l) = (length l - 1)%nat.
Proof.
  induction l as [|a [|b t] IH]; simpl in *; try reflexivity.
  rewrite IH. lia.
Qed.

Lemma length_diff (l : list R) : length (diff l) = (length l - 1)%nat.
Proof.
  induction l as [|a [|b t] IH]; simpl in *; try reflexivity.
  rewrite IH. lia.
Qed.

Lemma nth_midpoints (l : list R) (i : nat) :
  (S i < length l)%nat ->
  nth i (midpoints l) 0 = (nth i l 0 + nth (S i) l 0) / 2.
Proof.
  revert i. induction l as [|a [|b t] IH]; intros i Hi; simpl in Hi; try lia.
  destruct i as [|i].
  - reflexivity.
  - change (nth i (midpoints (b :: t)) 0
            = (nth i (b :: t) 0 + nth (S i) (b :: t) 0) / 2).
    apply IH. simpl. lia.
Qed.

Lemma nth_diff (l : list R) (i : nat) :
  (S i < length l)%nat ->
  nth i (diff l) 0 = nth (S i) l 0 - nth i l 0.
Proof.
  revert i. induction l as [|a [|b t] IH]; intros i Hi; simpl in Hi; try lia.
  destruct i as [|i].
  - reflexivity.
  - change (nth i (diff (b :: t)) 0
            = nth (S i) (b :: t) 0 - nth i (b :: t) 0).
    apply IH. simpl. lia.
Qed.

Lemma length_bin_centers_MK (tb : TempBins) :
  length (_bin_centers_MK tb) = n_bins tb.
Proof.
  unfold _bin_centers_MK, n_bins, scale_by, Scalable_list, bin_centers. simpl.
  rewrite length_map. apply length_midpoints.
Qed.

Lemma nth_bin_centers_MK (tb : TempBins) (i : nat) :
  (i < n_bins tb)%nat ->
  nth i (_bin_centers_MK tb) 0
  = (nth i (value (edges tb)) 0 + nth (S i) (value (edges tb)) 0) / 2
    * factor (unit (edges tb)) MK.
Proof.
  unfold n_bins. intros Hi.
  rewrite <- nth_midpoints by lia.
  unfold _bin_centers_MK, scale_by, Scalable_list, bin_centers. simpl.
  set (k := factor _ _).
  rewrite <- (map_nth (fun x => x * k)).
  f_equal. lra.
Qed.

(** ** The Gaussian contribution function *)

(** What a call of [binned] on a Gaussian contribution function amounts
    to: the instance is handed back as it was. *)
Lemma gaussian_binned_run (cf : ContFuncGaussian.t) (tb : TempBins) :
  ContFuncGaussian.binned tb cf
  = (and_then (to_value (bin_centers tb) MK) (fun _ =>
       Ok (mkQuantity
             (map (ContFuncGaussian.profile (ContFuncGaussian._center_MK cf)
                                            (ContFuncGaussian._width_MK cf))
                  (_bin_centers_MK tb))
             cm5_per_K)),
     cf).
Proof.
  unfold ContFuncGaussian.binned, bind, lift, getattr, ret.
  destruct (to_value (bin_centers tb) MK); reflexivity.
Qed.

Lemma gaussian_binned_ok (cf : ContFuncGaussian.t) (tb : TempBins) :
  dims (unit (edges tb)) = dims K ->
  ContFuncGaussian.binned tb cf
  = (Ok (mkQuantity
           (map (ContFuncGaussian.profile (ContFuncGaussian._center_MK cf)
                                          (ContFuncGaussian._width_MK cf))
                (_bin_centers_MK tb))
           cm5_per_K),
     cf).
Proof.
  intros T. rewrite gaussian_binned_run.
  rewrite to_value_ok by exact T. reflexivity.
Qed.

(** C5. On every temperature grid, [binned] of a Gaussian contribution
    function returns (it raises nothing); the sequence it returns has one
    entry per bin of the grid, and entry [i] is the profile evaluated at the
    center of the grid's [i]-th bin, the midpoint of edges [i] and [i+1]
    expressed in MK. *)
Theorem gaussian_binned_never_fails
  (cf : ContFuncGaussian.t) (tb : TempBins) :
  dims (unit (edges tb)) = dims K ->
  exists q,
    ContFuncGaussian.binned tb cf = (Ok q, cf)
    /\ unit q = cm5_per_K
    /\ length (value q) = n_bins tb
    /\ forall i, (i < n_bins tb)%nat ->
         nth i (value q) NaN
         = ContFuncGaussian.profile
             (ContFuncGaussian._center_MK cf) (ContFuncGaussian._width_MK cf)
             ((nth i (value (edges tb)) 0 + nth (S i) (value (edges tb)) 0) / 2
              * factor (unit (edges tb)) MK).
Proof.
  intros T. eexists. split; [apply gaussian_binned_ok; exact T|].
  simpl. split; [reflexivity|]. split.
  - rewrite length_map. apply length_bin_centers_MK.
  - intros i Hi.
    rewrite <- nth_bin_centers_MK by exact Hi.
    set (f := ContFuncGaussian.profile _ _).
    rewrite (nth_indep _ NaN (f 0)) by (rewrite length_map, length_bin_centers_MK; exact Hi).
    apply map_nth.
Qed.

Lemma profile_nonzero_width (c w x : R) :
  w <> 0 ->
  ContFuncGaussian.profile c w x = Fin (np_exp (- (((c - x) / w) ^ 2)) * 1e6).
Proof.
  intros Hw. unfold ContFuncGaussian.profile.
  destruct (Req_dec_T w 0); [contradiction|reflexivity].
Qed.

Lemma sq_quotient_lt (w a b : R) :
  w <> 0 -> Rabs a < Rabs b -> (a / w) ^ 2 < (b / w) ^ 2.
Proof.
  intros Hw Hab.
  apply Rsqr_lt_abs_1 in Hab. unfold Rsqr in Hab.
  assert (Hi : 0 < / w * / w).
  { assert (/ w <> 0) by (apply Rinv_neq_0_compat; exact Hw). nra. }
  unfold Rdiv. simpl. nra.
Qed.

Lemma sq_quotient_eq (w a b : R) :
  Rabs a = Rabs b -> (a / w) ^ 2 = (b / w) ^ 2.
Proof.
  intros Hab.
  assert (E : a = b \/ a = - b).
  { unfold Rabs in Hab.
    destruct (Rcase_abs a), (Rcase_abs b); [left|right|right|left]; lra. }
  unfold Rdiv. simpl. destruct E as [-> | ->]; lra.
Qed.

Lemma gaussian_init_fields (c w : Quantity R) (cf : ContFuncGaussian.t) :
  ContFuncGaussian.__init__ c w = Ok cf ->
  ContFuncGaussian.center cf = c
  /\ ContFuncGaussian.width cf = w
  /\ ContFuncGaussian._center_MK cf = value c * factor (unit c) MK
  /\ ContFuncGaussian._width_MK cf = value w * factor (unit w) MK.
Proof.
  unfold ContFuncGaussian.__init__, and_then, to_value.
  destruct (dim_eqb (dims (unit w)) (dims MK)); [|discriminate].
  destruct (dim_eqb (dims (unit c)) (dims MK)); [|discriminate].
  intros E. injection E as <-. simpl. auto.
Qed.

Lemma ln_2_pos : 0 < ln 2.
Proof. rewrite <- ln_1. apply ln_increasing; lra. Qed.

Lemma ln_2_lt_1 : ln 2 < 1.
Proof.
  assert (H : ln 2 < ln (exp 1)).
  { apply ln_increasing; [lra|]. pose proof (exp_ineq1 1 ltac:(lra)). lra. }
  rewrite ln_exp in H. exact H.
Qed.

Lemma np_exp_0 : np_exp 0 = 1.
Proof.
  unfold np_exp. pose proof ln_2_pos.
  destruct (Rle_dec 0 (- (1075 * ln 2))); [lra | apply exp_0].
Qed.

Lemma np_exp_nonnegative (x : R) : 0 <= np_exp x.
Proof.
  unfold np_exp. destruct (Rle_dec x (- (1075 * ln 2))); [lra|].
  left. apply exp_pos.
Qed.

Lemma np_exp_monotone (x y : R) : x <= y -> np_exp x <= np_exp y.
Proof.
  intros Hxy. unfold np_exp.
  destruct (Rle_dec x (- (1075 * ln 2))) as [Hx|Hx].
  - destruct (Rle_dec y (- (1075 * ln 2))); [lra | left; apply exp_pos].
  - destruct (Rle_dec y (- (1075 * ln 2))); [lra|].
    destruct Hxy as [Hlt | ->]; [left; apply exp_increasing; exact Hlt | lra].
Qed.

Lemma np_exp_le_1 (x : R) : x <= 0 -> np_exp x <= 1.
Proof.
  intros Hx. rewrite <- np_exp_0. apply np_exp_monotone. exact Hx.
Qed.

Lemma np_exp_underflow (x : R) : x <= - 1075 -> np_exp x = 0.
Proof.
  intros Hx. unfold np_exp. pose proof ln_2_lt_1.
  destruct (Rle_dec x (- (1075 * ln 2))); [reflexivity | lra].
Qed.

Lemma sq_quotient_le (w a b : R) :
  w <> 0 -> Rabs a <= Rabs b -> (a / w) ^ 2 <= (b / w) ^ 2.
Proof.
  intros Hw [Hlt | Heq].
  - left. apply sq_quotient_lt; assumption.
  - right. apply sq_quotient_eq. exact Heq.
Qed.

(** C4. A Gaussian contribution function built with center [c] and a
    positive width, binned on a temperature grid, gives at bin [i] the value
    [np.exp (-((c - c_i) / width)^2) * 1e6] in cm^5/K, where [c_i] is the
    bin center.  Hence a bin whose center is [c] gets [1e6], no bin gets
    more, a bin at least as far from [c] as another never gets more than
    it, and two bins at the same distance from [c] get the same value.
    The decrease is not strict: far from the center [np.exp] underflows
    to 0. *)
Theorem gaussian_binned_peak_monotone_symmetric
  (c w : Quantity R) (cf : ContFuncGaussian.t) (tb : TempBins) :
  ContFuncGaussian.__init__ c w = Ok cf ->
  0 < value w ->
  dims (unit (edges tb)) = dims K ->
  let c_MK := value c * factor (unit c) MK in
  let w_MK := value w * factor (unit w) MK in
  let ctr := fun i => nth i (_bin_centers_MK tb) 0 in
  exists vs : list R,
    ContFuncGaussian.binned tb cf
    = (Ok (mkQuantity (map Fin vs) cm5_per_K), cf)
    /\ length vs = n_bins tb
    /\ (forall i, (i < n_bins tb)%nat ->
          nth i vs 0 = np_exp (- (((c_MK - ctr i) / w_MK) ^ 2)) * 1e6)
    /\ (forall i, (i < n_bins tb)%nat -> ctr i = c_MK -> nth i vs 0 = 1e6)
    /\ (forall i, (i < n_bins tb)%nat -> 0 <= nth i vs 0 <= 1e6)
    /\ (forall i j, (i < n_bins tb)%nat -> (j < n_bins tb)%nat ->
          Rabs (ctr i - c_MK) <= Rabs (ctr j - c_MK) ->
          nth j vs 0 <= nth i vs 0)
    /\ (forall i j, (i < n_bins tb)%nat -> (j < n_bins tb)%nat ->
          Rabs (ctr i - c_MK) = Rabs (ctr j - c_MK) ->
          nth i vs 0 = nth j vs 0).
Proof.
  intros Hinit Hw T c_MK w_MK ctr.
  destruct (gaussian_init_fields _ _ _ Hinit) as (_ & _ & Hc & Hwm).
  fold c_MK in Hc. fold w_MK in Hwm.
  assert (Hpos : 0 < w_MK).
  { unfold w_MK. apply Rmult_lt_0_compat; [exact Hw | apply factor_pos]. }
  assert (Hnz : w_MK <> 0) by lra.
  set (g := fun x => np_exp (- (((c_MK - x) / w_MK) ^ 2)) * 1e6).
  exists (map g (_bin_centers_MK tb)).
  assert (Hnth : forall i, (i < n_bins tb)%nat ->
                   nth i (map g (_bin_centers_MK tb)) 0 = g (ctr i)).
  { intros i Hi. unfold ctr.
    rewrite (nth_indep _ 0 (g 0))
      by (rewrite length_map, length_bin_centers_MK; exact Hi).
    apply map_nth. }
  split.
  { rewrite gaussian_binned_ok by exact T. rewrite Hc, Hwm.
    do 2 f_equal. f_equal. rewrite map_map.
    apply map_ext. intros x. apply profile_nonzero_width. exact Hnz. }
  split; [rewrite length_map; apply length_bin_centers_MK|].
  split; [exact Hnth|].
  split.
  { intros i Hi E. rewrite Hnth by exact Hi. unfold g. rewrite E.
    replace (- (((c_MK - c_MK) / w_MK) ^ 2)) with 0
      by (unfold Rdiv; simpl; lra).
    rewrite np_exp_0. lra. }
  split.
  { intros i Hi. rewrite Hnth by exact Hi. unfold g.
    pose proof (pow2_ge_0 ((c_MK - ctr i) / w_MK)) as H0.
    pose proof (np_exp_nonnegative (- (((c_MK - ctr i) / w_MK) ^ 2))).
    pose proof (np_exp_le_1 (- (((c_MK - ctr i) / w_MK) ^ 2)) ltac:(lra)).
    lra. }
  split.
  { intros i j Hi Hj Hd. rewrite !Hnth by assumption. unfold g.
    apply Rmult_le_compat_r; [lra|]. apply np_exp_monotone.
    apply Ropp_le_contravar. apply sq_quotient_le; [exact Hnz|].
    rewrite (Rabs_minus_sym c_MK (ctr i)), (Rabs_minus_sym c_MK (ctr j)).
    exact Hd. }
  { intros i j Hi Hj Hd. rewrite !Hnth by assumption. unfold g.
    f_equal. f_equal. f_equal. apply sq_quotient_eq.
    rewrite (Rabs_minus_sym c_MK (ctr i)), (Rabs_minus_sym c_MK (ctr j)).
    exact Hd. }
Qed.

Lemma gaussian_binned_example :
  exists vs : list R,
    ContFuncGaussian.binned ex_grid_MK ex_gaussian
    = (Ok (mkQuantity (map Fin vs) cm5_per_K), ex_gaussian)
    /\ length vs = 2%nat
    /\ nth 0 vs 0 = 1e6
    /\ nth 1 vs 0 <= nth 0 vs 0.
Proof.
  destruct (gaussian_binned_peak_monotone_symmetric
              ex_center ex_width ex_gaussian ex_grid_MK)
    as (vs & Hrun & Hlen & _ & Hpeak & _ & Hdec & _).
  - reflexivity.
  - simpl. lra.
  - reflexivity.
  - exists vs. split; [exact Hrun|]. split; [exact Hlen|]. split.
    + apply Hpeak; [unfold n_bins; simpl; lia|].
      unfold _bin_centers_MK, factor, scale_by, Scalable_list. simpl. lra.
    + apply Hdec; [unfold n_bins; simpl; lia | unfold n_bins; simpl; lia |].
      unfold _bin_centers_MK, factor, scale_by, Scalable_list. simpl.
      rewrite !Rabs_right; lra.
Defined.

(** The decrease away from the center is not strict.  For a center of
    2 MK and a width of 0.01 MK on the grid with edges 1, 3, 5, 7 MK, the
    bins centered on 4 MK and 6 MK are at different distances from the
    center and both get the value 0: the exponential has underflowed. *)
Lemma gaussian_binned_not_strictly_decreasing :
  ContFuncGaussian.__init__ ex_center ex_width_narrow = Ok ex_gaussian_narrow
  /\ ContFuncGaussian.binned ex_grid_wide_MK ex_gaussian_narrow
     = (Ok (mkQuantity (map Fin [1e6; 0; 0]) cm5_per_K), ex_gaussian_narrow)
  /\ Rabs (nth 1 (_bin_centers_MK ex_grid_wide_MK) 0 - 2)
     < Rabs (nth 2 (_bin_centers_MK ex_grid_wide_MK) 0 - 2)
  /\ ~ (nth 2 [1e6; 0; 0] 0 < nth 1 [1e6; 0; 0] 0).
Proof.
  split; [reflexivity|]. split; [|split].
  - rewrite gaussian_binned_ok by reflexivity.
    do 3 f_equal.
    unfold _bin_centers_MK, ex_gaussian_narrow, factor, scale_by,
      Scalable_list, Scalable_R.
    cbn -[Rmult Rplus Rminus Rdiv Rinv Ropp IZR ContFuncGaussian.profile].
    rewrite !profile_nonzero_width by lra.
    apply f_equal2; [|apply f_equal2; [|apply f_equal2; [|reflexivity]]];
      f_equal.
    + replace ((2 * 1 - (1 + 3) / 2 * 1) / (0.01 * 1)) with 0 by lra.
      replace (- 0 ^ 2) with 0 by (simpl; lra).
      rewrite np_exp_0. lra.
    + rewrite np_exp_underflow; [lra|].
      replace ((2 * 1 - (3 + 5) / 2 * 1) / (0.01 * 1)) with (- 200) by lra.
      simpl. lra.
    + rewrite np_exp_underflow; [lra|].
      replace ((2 * 1 - (5 + 7) / 2 * 1) / (0.01 * 1)) with (- 400) by lra.
      simpl. lra.
  - unfold _bin_centers_MK, factor, scale_by, Scalable_list. simpl.
    rewrite !Rabs_right; lra.
  - simpl. lra.
Qed.

Lemma gaussian_binned_never_fails_example :
  exists q,
    ContFuncGaussian.binned ex_grid_MK ex_gaussian = (Ok q, ex_gaussian)
    /\ length (value q) = 2%nat.
Proof.
  destruct (gaussian_binned_never_fails ex_gaussian ex_grid_MK)
    as (q & Hrun & _ & Hlen & _).
  - reflexivity.
  - exists q. split; [exact Hrun | exact Hlen].
Defined.

(** ** The discrete contribution function: construction *)

(** C6. Construction succeeds exactly when both arrays are one-dimensional
    and of the same size, and the object then holds the two arrays as they
    were given; in every other case it raises one of the three construction
    errors and there is no object.  The two examples of the specification:
    three temperatures with four values, and a two-dimensional [temps]. *)
Theorem discrete_init_validates :
  (forall (temps values : Quantity ndarray) (cf : ContFuncDiscrete.t),
      ContFuncDiscrete.__init__ temps values = Ok cf
      <-> (ndim (value temps) = 1%nat /\ ndim (value values) = 1%nat
           /\ size (value temps) = size (value values))
          /\ cf = ContFuncDiscrete.mk temps values)
  /\ (forall temps values : Quantity ndarray,
        ndim (value temps) <> 1%nat ->
        ContFuncDiscrete.__init__ temps values = Err ValueError_temps_not_1D)
  /\ (forall temps values : Quantity ndarray,
        ndim (value temps) = 1%nat -> ndim (value values) <> 1%nat ->
        ContFuncDiscrete.__init__ temps values = Err ValueError_values_not_1D)
  /\ (forall temps values : Quantity ndarray,
        ndim (value temps) = 1%nat -> ndim (value values) = 1%nat ->
        size (value temps) <> size (value values) ->
        ContFuncDiscrete.__init__ temps values = Err ValueError_size_mismatch)
  /\ ContFuncDiscrete.__init__
       (mkQuantity (array1 [1; 2; 3]) K)
       (mkQuantity (array1 [10; 20; 30; 40]) cm5_per_K)
     = Err ValueError_size_mismatch
  /\ ContFuncDiscrete.__init__
       (mkQuantity (mkArray 2 [1; 2; 3; 4]) K)
       (mkQuantity (array1 [10; 20; 30; 40]) cm5_per_K)
     = Err ValueError_temps_not_1D.
Proof.
  split; [|split; [|split; [|split; [|split]]]].
  - intros temps values cf. unfold ContFuncDiscrete.__init__. split.
    + destruct (ndim (value temps) =? 1)%nat eqn:E1; [|discriminate].
      destruct (ndim (value values) =? 1)%nat eqn:E2; [|discriminate].
      destruct (size (value temps) =? size (value values))%nat eqn:E3;
        [|discriminate].
      simpl. intros E. injection E as <-.
      apply Nat.eqb_eq in E1, E2, E3. auto.
    + intros [(E1 & E2 & E3) ->].
      apply Nat.eqb_eq in E1, E2, E3. rewrite E1, E2, E3. reflexivity.
  - intros temps values N. unfold ContFuncDiscrete.__init__.
    apply Nat.eqb_neq in N. rewrite N. reflexivity.
  - intros temps values E N. unfold ContFuncDiscrete.__init__.
    apply Nat.eqb_eq in E. apply Nat.eqb_neq in N. rewrite E, N. reflexivity.
  - intros temps values E1 E2 N. unfold ContFuncDiscrete.__init__.
    apply Nat.eqb_eq in E1, E2. apply Nat.eqb_neq in N.
    rewrite E1, E2, N. reflexivity.
  - reflexivity.
  - reflexivity.
Qed.

(** ** The discrete contribution function: the edge check *)

Lemma missing_edges_filter (temps : Quantity ndarray) (ts : list (Quantity R)) :
  ContFuncDiscrete.missing_edges temps ts
  = filter (fun t => negb (contains temps t)) ts.
Proof.
  induction ts as [|t rest IH]; simpl; [reflexivity|].
  rewrite IH. reflexivity.
Qed.

Lemma discrete_check_run (cf : ContFuncDiscrete.t) (tb : TempBins) :
  ContFuncDiscrete._check_bin_edges tb cf
  = (match ContFuncDiscrete.missing_edges
             (ContFuncDiscrete.temps cf) (iter (edges tb)) with
     | [] => Ok tt
     | missing_ts => Err (ValueError_missing_bin_edges missing_ts)
     end, cf).
Proof.
  unfold ContFuncDiscrete._check_bin_edges, bind, getattr.
  destruct (ContFuncDiscrete.missing_edges _ _); reflexivity.
Qed.

(** What a call of [binned] on a discrete contribution function amounts
    to: the instance is handed back as it was. *)
Lemma discrete_binned_run (cf : ContFuncDiscrete.t) (tb : TempBins) :
  ContFuncDiscrete.binned tb cf
  = (match ContFuncDiscrete.missing_edges
             (ContFuncDiscrete.temps cf) (iter (edges tb)) with
     | [] =>
         and_then (to_value (ContFuncDiscrete.temps cf) K) (fun temps_K =>
         and_then (to_value (ContFuncDiscrete.values cf) cm5_per_K) (fun vals =>
         and_then (DataFrame temps_K vals) (fun df =>
         and_then (to_value (edges tb) K) (fun es =>
         and_then (cut (map fst df) es) (fun groups =>
         Ok (mkQuantity (groupby_mean (n_categories es) groups (map snd df))
                        cm5_per_K))))))
     | missing_ts => Err (ValueError_missing_bin_edges missing_ts)
     end, cf).
Proof.
  unfold ContFuncDiscrete.binned, bind. rewrite discrete_check_run.
  destruct (ContFuncDiscrete.missing_edges _ _); [|reflexivity].
  unfold getattr, lift, ret, and_then.
  destruct (to_value (ContFuncDiscrete.temps cf) K); [|reflexivity].
  destruct (to_value (ContFuncDiscrete.values cf) cm5_per_K); [|reflexivity].
  destruct (DataFrame _ _); [|reflexivity].
  destruct (to_value (edges tb) K); [|reflexivity].
  destruct (cut _ _); reflexivity.
Qed.

Lemma contains_spec (arr : Quantity ndarray) (t : Quantity R) :
  contains arr t = true
  <-> dims (unit t) = dims (unit arr)
      /\ In (value t * factor (unit t) (unit arr)) (data (value arr)).
Proof.
  unfold contains, to_value.
  destruct (dim_eqb (dims (unit t)) (dims (unit arr))) eqn:D.
  - apply dim_eqb_eq in D. rewrite existsb_exists. split.
    + intros (x & Hin & Hx). split; [exact D|].
      unfold Reqb in Hx. destruct (Req_dec_T _ _) as [->|]; [|discriminate].
      exact Hin.
    + intros [_ Hin]. eexists. split; [exact Hin|].
      unfold Reqb. destruct (Req_dec_T _ _); [reflexivity|contradiction].
  - split; [discriminate|]. intros [E _].
    apply dim_eqb_eq in E. congruence.
Qed.

Lemma binned_after_check_not_missing (cf : ContFuncDiscrete.t) (tb : TempBins)
  (l : list (Quantity R)) :
  and_then (to_value (ContFuncDiscrete.temps cf) K) (fun temps_K =>
  and_then (to_value (ContFuncDiscrete.values cf) cm5_per_K) (fun vals =>
  and_then (DataFrame temps_K vals) (fun df =>
  and_then (to_value (edges tb) K) (fun es =>
  and_then (cut (map fst df) es) (fun groups =>
  Ok (mkQuantity (groupby_mean (n_categories es) groups (map snd df))
                 cm5_per_K))))))
  <> Err (ValueError_missing_bin_edges l).
Proof.
  unfold and_then.
  destruct (to_value (ContFuncDiscrete.temps cf) K) as [tk|e] eqn:E1;
    [|unfold to_value in E1; destruct (dim_eqb _ _); congruence].
  destruct (to_value (ContFuncDiscrete.values cf) cm5_per_K) as [vk|e] eqn:E2;
    [|unfold to_value in E2; destruct (dim_eqb _ _); congruence].
  destruct (DataFrame tk vk) as [df|e] eqn:E3;
    [|unfold DataFrame in E3; destruct (_ && _); congruence].
  destruct (to_value (edges tb) K) as [es|e] eqn:E4;
    [|unfold to_value in E4; destruct (dim_eqb _ _); congruence].
  destruct (cut (map fst df) es) as [g|e] eqn:E5; [discriminate|].
  unfold cut in E5.
  destruct (existsb _ _); [congruence|].
  destruct (_ && _); [congruence|].
  destruct es; congruence.
Qed.

(** ** Locating samples in a sorted grid *)

Lemma sorted_head_le_nth (b : R) (bs : list R) (k : nat) :
  StronglySorted Rlt (b :: bs) ->
  (k < length (b :: bs))%nat ->
  b <= nth k (b :: bs) 0.
Proof.
  intros HS Hk. destruct k as [|k]; simpl; [lra|].
  apply StronglySorted_inv in HS. destruct HS as [_ HF].
  rewrite Forall_forall in HF. left. apply HF.
  apply nth_In. simpl in Hk. lia.
Qed.

Lemma searchsorted_left_spec (es : list R) :
  StronglySorted Rlt es ->
  forall (x : R) (k : nat),
    (S k < length es)%nat ->
    searchsorted_left es x = S k
    <-> nth k es 0 < x /\ x <= nth (S k) es 0.
Proof.
  induction es as [|b bs IH]; intros HS x k Hk; [simpl in Hk; lia|].
  pose proof (sorted_head_le_nth b bs k HS ltac:(lia)) as Hb.
  pose proof HS as HS'. apply StronglySorted_inv in HS'.
  destruct HS' as [HSbs _].
  cbn [searchsorted_left]. destruct (Rlt_dec b x) as [Hlt|Hge].
  - destruct k as [|k].
    + destruct bs as [|b1 bs']; [simpl in Hk; lia|].
      cbn [searchsorted_left nth]. destruct (Rlt_dec b1 x); split.
      * discriminate.
      * intros [_ H]. lra.
      * intros _. lra.
      * reflexivity.
    + simpl in Hk. specialize (IH HSbs x k ltac:(lia)).
      change (nth (S k) (b :: bs) 0) with (nth k bs 0).
      change (nth (S (S k)) (b :: bs) 0) with (nth (S k) bs 0).
      rewrite <- IH. split; [intros E; injection E; auto | intros ->; auto].
  - split; [discriminate|]. intros [H _]. lra.
Qed.

Lemma searchsorted_left_le (es : list R) (x : R) :
  (searchsorted_left es x <= length es)%nat.
Proof.
  induction es as [|b bs IH]; simpl; [lia|].
  destruct (Rlt_dec b x); lia.
Qed.

Lemma locate_in_bin (b0 : R) (bs : list R) (x : R) (k : nat) :
  StronglySorted Rlt (b0 :: bs) ->
  (S k < length (b0 :: bs))%nat ->
  group_is k (locate (b0 :: bs) b0 x) = in_bin (b0 :: bs) k x.
Proof.
  intros HS Hk.
  pose proof (sorted_head_le_nth b0 bs k HS ltac:(lia)) as Hb.
  pose proof (searchsorted_left_spec _ HS x k Hk) as Hspec.
  pose proof (searchsorted_left_le (b0 :: bs) x) as Hle.
  unfold locate, in_bin, Reqb, Rltb, Rleb.
  change (nth 0 (b0 :: bs) 0) with b0.
  destruct (Req_dec_T x b0) as [->|Hne].
  - replace ((1 =? length (b0 :: bs)) || (1 =? 0))%nat with false
      by (symmetry; apply orb_false_iff; split; apply Nat.eqb_neq; lia).
    cbn [group_is Nat.sub].
    destruct (Rlt_dec (nth k (b0 :: bs) 0) b0); [lra|].
    cbn [andb orb]. rewrite andb_true_r. apply Nat.eqb_sym.
  - rewrite andb_false_r, orb_false_r.
    destruct ((searchsorted_left (b0 :: bs) x =? length (b0 :: bs))%nat
              || (searchsorted_left (b0 :: bs) x =? 0)%nat) eqn:Ends.
    + cbn [group_is]. symmetry. apply andb_false_iff.
      apply orb_true_iff in Ends.
      destruct (Rlt_dec (nth k (b0 :: bs) 0) x) as [H1|]; [|auto].
      destruct (Rle_dec x (nth (S k) (b0 :: bs) 0)) as [H2|]; [|auto].
      exfalso. assert (E : searchsorted_left (b0 :: bs) x = S k)
        by (apply Hspec; auto).
      destruct Ends as [E'|E']; apply Nat.eqb_eq in E'; lia.
    + apply orb_false_iff in Ends. destruct Ends as [E1 E2].
      apply Nat.eqb_neq in E1, E2. cbn [group_is].
      destruct (searchsorted_left (b0 :: bs) x - 1 =? k)%nat eqn:Ek.
      * apply Nat.eqb_eq in Ek.
        assert (E : searchsorted_left (b0 :: bs) x = S k) by lia.
        apply Hspec in E. destruct E as [H1 H2].
        destruct (Rlt_dec _ _); [|contradiction].
        destruct (Rle_dec _ _); [reflexivity|contradiction].
      * apply Nat.eqb_neq in Ek. symmetry. apply andb_false_iff.
        destruct (Rlt_dec (nth k (b0 :: bs) 0) x) as [H1|]; [|auto].
        destruct (Rle_dec x (nth (S k) (b0 :: bs) 0)) as [H2|]; [|auto].
        exfalso. assert (E : searchsorted_left (b0 :: bs) x = S k)
          by (apply Hspec; auto).
        lia.
Qed.

Lemma group_bin_values (b0 : R) (bs : list R) (rows : list (R * R)) (k : nat) :
  StronglySorted Rlt (b0 :: bs) ->
  (S k < length (b0 :: bs))%nat ->
  group (map (locate (b0 :: bs) b0) (map fst rows)) (map snd rows) k
  = bin_values (b0 :: bs) rows k.
Proof.
  intros HS Hk. unfold group, bin_values.
  induction rows as [|[x v] rows IH]; [reflexivity|].
  cbn [map combine filter fst snd].
  rewrite (locate_in_bin b0 bs x k HS Hk).
  destruct (in_bin (b0 :: bs) k x); cbn [map snd]; rewrite IH; reflexivity.
Qed.

Lemma sorted_diff_nonnegative (es : list R) :
  StronglySorted Rlt es ->
  existsb (fun d => Rltb d 0) (diff es) = false.
Proof.
  induction es as [|a [|b t] IH]; intros HS; try reflexivity.
  apply StronglySorted_inv in HS. destruct HS as [HS HF].
  change (diff (a :: b :: t)) with ((b - a) :: diff (b :: t)).
  cbn [existsb]. rewrite (IH HS), orb_false_r.
  apply Forall_inv in HF. unfold Rltb.
  destruct (Rlt_dec (b - a) 0); [lra|reflexivity].
Qed.

Lemma sorted_NoDup (es : list R) : StronglySorted Rlt es -> NoDup es.
Proof.
  induction es as [|a t IH]; intros HS; [constructor|].
  apply StronglySorted_inv in HS. destruct HS as [HS HF].
  constructor; [|apply IH; exact HS].
  intros Hin. rewrite Forall_forall in HF. apply HF in Hin. lra.
Qed.

Lemma sorted_scale (l : list R) (f : R) :
  0 < f -> StronglySorted Rlt l ->
  StronglySorted Rlt (map (fun x => x * f) l).
Proof.
  intros Hf. induction l as [|a t IH]; intros HS; [constructor|].
  apply StronglySorted_inv in HS. destruct HS as [HS HF].
  cbn [map]. constructor; [apply IH; exact HS|].
  rewrite Forall_forall in *. intros y Hy.
  apply in_map_iff in Hy. destruct Hy as (x & <- & Hx).
  apply HF in Hx. nra.
Qed.

Lemma cut_sorted (xs : list R) (b0 : R) (bs : list R) :
  StronglySorted Rlt (b0 :: bs) ->
  cut xs (b0 :: bs) = Ok (map (locate (b0 :: bs) b0) xs).
Proof.
  intros HS. unfold cut, unique.
  rewrite (sorted_diff_nonnegative _ HS).
  rewrite (nodup_fixed_point Req_dec_T (sorted_NoDup _ HS)).
  rewrite Nat.ltb_irrefl. reflexivity.
Qed.

Lemma well_formed_edges_K (tb : TempBins) :
  well_formed tb ->
  exists b0 bs, edges_K tb = b0 :: bs /\ StronglySorted Rlt (b0 :: bs).
Proof.
  intros (_ & Hne & HS). unfold edges_K.
  pose proof (sorted_scale _ _ (factor_pos (unit (edges tb)) K) HS) as HS'.
  destruct (value (edges tb)) as [|a t]; [contradiction|].
  cbn [map] in *. eauto.
Qed.

Lemma length_edges_K (tb : TempBins) :
  length (edges_K tb) = length (value (edges tb)).
Proof. unfold edges_K. apply length_map. Qed.

Lemma check_passes_temperature (cf : ContFuncDiscrete.t) (tb : TempBins) :
  well_formed tb ->
  ContFuncDiscrete.missing_edges (ContFuncDiscrete.temps cf) (iter (edges tb))
  = [] ->
  dims (unit (ContFuncDiscrete.temps cf)) = dims K.
Proof.
  intros (HT & Hne & _) Hmiss. rewrite missing_edges_filter in Hmiss.
  unfold iter in Hmiss.
  destruct (value (edges tb)) as [|a t]; [contradiction|].
  cbn [map filter] in Hmiss.
  destruct (contains _ _) eqn:C; [|discriminate].
  apply contains_spec in C. destruct C as [C _]. simpl in C. congruence.
Qed.

Lemma data_scale (k : R) (a : ndarray) :
  data (scale_by k a) = map (fun x => x * k) (data a).
Proof. reflexivity. Qed.

Lemma ndim_scale (k : R) (a : ndarray) : ndim (scale_by k a) = ndim a.
Proof. reflexivity. Qed.

(** The result of [binned] on a well-formed grid whose edges are all among
    the sample points: per bin, the mean of the values of the samples in
    that bin. *)
Lemma discrete_binned_sorted (cf : ContFuncDiscrete.t) (tb : TempBins) :
  ContFuncDiscrete.__init__ (ContFuncDiscrete.temps cf)
                            (ContFuncDiscrete.values cf) = Ok cf ->
  dims (unit (ContFuncDiscrete.values cf)) = dims cm5_per_K ->
  well_formed tb ->
  ContFuncDiscrete.missing_edges (ContFuncDiscrete.temps cf) (iter (edges tb))
  = [] ->
  ContFuncDiscrete.binned tb cf
  = (Ok (mkQuantity
           (map (fun k => mean (bin_values (edges_K tb) (samples cf) k))
                (seq 0 (n_bins tb)))
           cm5_per_K),
     cf).
Proof.
  intros Hinit Hval Hwf Hmiss.
  pose proof (check_passes_temperature cf tb Hwf Hmiss) as Htemp.
  destruct (well_formed_edges_K tb Hwf) as (b0 & bs & Hes & HS).
  rewrite discrete_binned_run, Hmiss.
  rewrite (to_value_ok _ K Htemp), (to_value_ok _ cm5_per_K Hval).
  rewrite (to_value_ok (edges tb) K) by (destruct Hwf as [HT _]; exact HT).
  cbn [and_then].
  unfold ContFuncDiscrete.__init__ in Hinit.
  destruct (ndim (value (ContFuncDiscrete.temps cf)) =? 1)%nat eqn:E1;
    [|discriminate].
  destruct (ndim (value (ContFuncDiscrete.values cf)) =? 1)%nat eqn:E2;
    [|discriminate].
  destruct (size (value (ContFuncDiscrete.temps cf))
            =? size (value (ContFuncDiscrete.values cf)))%nat eqn:E3;
    [|discriminate].
  clear Hinit.
  unfold DataFrame, size. rewrite !ndim_scale, !data_scale, !length_map.
  unfold size in E3. rewrite E1, E2, E3. cbn [andb and_then].
  change (scale_by (factor (unit (edges tb)) K) (value (edges tb)))
    with (edges_K tb).
  fold (magnitudes_in (ContFuncDiscrete.temps cf) K).
  fold (magnitudes_in (ContFuncDiscrete.values cf) cm5_per_K).
  fold (samples cf).
  rewrite Hes, (cut_sorted _ _ _ HS). cbn [and_then].
  do 3 f_equal. unfold groupby_mean, n_categories, n_bins.
  rewrite <- length_edges_K, Hes.
  apply map_ext_in. intros k Hk. apply in_seq in Hk.
  rewrite (group_bin_values b0 bs (samples cf) k HS) by (simpl in *; lia).
  reflexivity.
Qed.

Lemma no_missing_edges (temps : Quantity ndarray) (ts : list (Quantity R)) :
  (forall t, In t ts -> contains temps t = true) <->
  ContFuncDiscrete.missing_edges temps ts = [].
Proof.
  rewrite missing_edges_filter. induction ts as [|t rest IH]; cbn [filter].
  - split; [reflexivity | intros _ t []].
  - destruct (contains temps t) eqn:C; cbn [negb].
    + rewrite <- IH. split.
      * intros H t' Ht'. apply H. right. exact Ht'.
      * intros H t' [<- | Ht']; [exact C | apply H; exact Ht'].
    + split; [|discriminate]. intros H.
      rewrite (H t) in C by (left; reflexivity). discriminate.
Qed.

Lemma in_bin_spec (es : list R) (k : nat) (x : R) :
  in_bin es k x = true
  <-> (nth k es 0 < x /\ x <= nth (S k) es 0) \/ (k = 0%nat /\ x = nth 0 es 0).
Proof.
  unfold in_bin, Rltb, Rleb, Reqb.
  rewrite orb_true_iff, !andb_true_iff, Nat.eqb_eq.
  destruct (Rlt_dec (nth k es 0) x), (Rle_dec x (nth (S k) es 0)),
    (Req_dec_T x (nth 0 es 0)); intuition (try discriminate; try lra).
Qed.

Lemma ex_grid_well_formed : well_formed ex_grid.
Proof.
  split; [reflexivity|]. split; [discriminate|].
  simpl. repeat constructor; lra.
Qed.

Lemma ex_discrete_edges_present :
  ContFuncDiscrete.missing_edges (ContFuncDiscrete.temps ex_discrete)
                                 (iter (edges ex_grid)) = [].
Proof.
  rewrite missing_edges_filter. unfold ex_grid, ex_discrete. unfold_units.
  unfold Reqb. decide_reals. reflexivity.
Qed.

Lemma ex_discrete_binned :
  ContFuncDiscrete.binned ex_grid ex_discrete
  = (Ok (mkQuantity [Fin 20; Fin 45] cm5_per_K), ex_discrete).
Proof.
  rewrite discrete_binned_sorted;
    [| reflexivity | reflexivity | exact ex_grid_well_formed
     | exact ex_discrete_edges_present].
  unfold ex_grid, ex_discrete. unfold_bins.
  decide_reals. cbn -[Rmult Rplus Rminus Rdiv Rinv Ropp IZR].
  do 3 f_equal.
  apply f_equal2; [apply f_equal; lra|].
  apply f_equal2; [apply f_equal; lra | reflexivity].
Qed.



(** ** Successful calls *)

Lemma discrete_binned_ok_inv (cf s : ContFuncDiscrete.t) (tb : TempBins)
  (q : Quantity (list fval)) :
  ContFuncDiscrete.binned tb cf = (Ok q, s) ->
  s = cf
  /\ ContFuncDiscrete.missing_edges (ContFuncDiscrete.temps cf)
                                    (iter (edges tb)) = []
  /\ ContFuncDiscrete.__init__ (ContFuncDiscrete.temps cf)
                               (ContFuncDiscrete.values cf) = Ok cf
  /\ dims (unit (ContFuncDiscrete.values cf)) = dims cm5_per_K
  /\ unit q = cm5_per_K
  /\ length (value q) = n_bins tb.
Proof.
  rewrite discrete_binned_run. intros E. injection E as E <-.
  split; [reflexivity|].
  destruct (ContFuncDiscrete.missing_edges _ _); [|discriminate].
  split; [reflexivity|].
  unfold and_then in E.
  destruct (to_value (ContFuncDiscrete.temps cf) K) as [tk|] eqn:E1;
    [|discriminate].
  destruct (to_value (ContFuncDiscrete.values cf) cm5_per_K) as [vk|] eqn:E2;
    [|discriminate].
  destruct (DataFrame tk vk) as [df|] eqn:E3; [|discriminate].
  destruct (to_value (edges tb) K) as [es|] eqn:E4; [|discriminate].
  destruct (cut (map fst df) es) as [g|] eqn:E5; [|discriminate].
  injection E as <-.
  unfold to_value in E1, E2, E4.
  destruct (dim_eqb (dims (unit (ContFuncDiscrete.temps cf))) (dims K));
    [|discriminate].
  destruct (dim_eqb (dims (unit (ContFuncDiscrete.values cf)))
                    (dims cm5_per_K)) eqn:D2; [|discriminate].
  destruct (dim_eqb (dims (unit (edges tb))) (dims K)); [|discriminate].
  injection E1 as <-. injection E2 as <-. injection E4 as <-.
  unfold DataFrame, size in E3. rewrite !ndim_scale, !data_scale in E3.
  rewrite !length_map in E3.
  destruct (ndim (value (ContFuncDiscrete.temps cf)) =? 1)%nat eqn:N1;
    [|discriminate].
  destruct (ndim (value (ContFuncDiscrete.values cf)) =? 1)%nat eqn:N2;
    [|discriminate].
  destruct (length (data (value (ContFuncDiscrete.temps cf)))
            =? length (data (value (ContFuncDiscrete.values cf))))%nat eqn:N3;
    [|discriminate].
  split.
  { unfold ContFuncDiscrete.__init__, size. rewrite N1, N2, N3.
    destruct cf; reflexivity. }
  split; [apply dim_eqb_eq; exact D2|].
  split; [reflexivity|].
  cbn [value]. unfold groupby_mean, n_categories, n_bins.
  rewrite length_map, length_seq.
  unfold scale_by, Scalable_list. rewrite length_map. reflexivity.
Qed.

(** ** Empty bins *)

Lemma group_none (groups : list (option nat)) (vals : list R) (k : nat) :
  (forall g, In g groups -> group_is k g = false) ->
  group groups vals k = [].
Proof.
  unfold group. revert vals.
  induction groups as [|g groups IH]; intros vals H; [reflexivity|].
  destruct vals as [|v vals]; [reflexivity|].
  cbn [combine filter fst]. rewrite (H g) by (left; reflexivity).
  apply IH. intros g' Hg'. apply H. right. exact Hg'.
Qed.

Lemma nth_groupby_mean (ncat : nat) (groups : list (option nat))
  (vals : list R) (k : nat) (d : fval) :
  (k < ncat)%nat ->
  nth k (groupby_mean ncat groups vals) d = mean (group groups vals k).
Proof.
  intros Hk. unfold groupby_mean.
  set (f := fun k => mean (group groups vals k)).
  rewrite (nth_indep _ d (f 0%nat)) by (rewrite length_map, length_seq; exact Hk).
  rewrite (map_nth f), seq_nth by exact Hk. reflexivity.
Qed.

Lemma mean_nan_iff (l : list R) : mean l = NaN <-> l = [].
Proof. destruct l; simpl; split; congruence. Qed.

Lemma factor_compose (a b c : Unit) : factor a b * factor b c = factor a c.
Proof.
  unfold factor. rewrite <- powerRZ_add by lra. f_equal. lia.
Qed.

Lemma sorted_nth_lt (es : list R) (k : nat) :
  StronglySorted Rlt es ->
  (S k < length es)%nat ->
  nth k es 0 < nth (S k) es 0.
Proof.
  revert k. induction es as [|a t IH]; intros k HS Hk; [simpl in Hk; lia|].
  apply StronglySorted_inv in HS. destruct HS as [HS HF].
  destruct k as [|k].
  - rewrite Forall_forall in HF. apply HF.
    change (nth 1 (a :: t) 0) with (nth 0 t 0).
    apply nth_In. simpl in Hk. lia.
  - change (nth k t 0 < nth (S k) t 0). apply IH; [exact HS|].
    simpl in Hk. lia.
Qed.

Lemma nth_scaled (l : list R) (f : R) (i : nat) :
  nth i (map (fun x => x * f) l) 0 = nth i l 0 * f.
Proof.
  rewrite <- (map_nth (fun x => x * f)). f_equal. lra.
Qed.

Lemma in_combine_left {A B} (l1 : list A) (l2 : list B) (a : A) :
  length l1 = length l2 -> In a l1 -> exists b, In (a, b) (combine l1 l2).
Proof.
  revert l2. induction l1 as [|x l1 IH]; intros l2 Hlen Hin; [contradiction|].
  destruct l2 as [|y l2]; [discriminate|].
  destruct Hin as [-> | Hin].
  - exists y. left. reflexivity.
  - destruct (IH l2) as [b Hb]; [simpl in Hlen; lia | exact Hin |].
    exists b. right. exact Hb.
Qed.

(** With exact conversions (no conversion at all when the table and the
    grid are in K), on a well-formed grid the upper edge of each bin is a
    sample point of any contribution function that passes the edge check,
    so every bin holds at least one sample. *)
Lemma discrete_binned_bins_nonempty (cf s : ContFuncDiscrete.t)
  (tb : TempBins) (q : Quantity (list fval)) :
  well_formed tb ->
  ContFuncDiscrete.binned tb cf = (Ok q, s) ->
  forall k, (k < n_bins tb)%nat ->
            bin_values (edges_K tb) (samples cf) k <> []
            /\ nth k (value q) (Fin 0) <> NaN.
Proof.
  intros Hwf Hrun k Hk.
  destruct (discrete_binned_ok_inv _ _ _ _ Hrun)
    as (-> & Hmiss & Hinit & Hval & _ & Hlen).
  assert (Hne : bin_values (edges_K tb) (samples cf) k <> []).
  { destruct (well_formed_edges_K tb Hwf) as (b0 & bs & Hes & HS).
    pose proof (check_passes_temperature cf tb Hwf Hmiss) as Htemp.
    unfold n_bins in Hk.
    set (r := nth (S k) (value (edges tb)) 0).
    assert (Hin : In (mkQuantity r (unit (edges tb))) (iter (edges tb))).
    { unfold iter.
      apply (in_map (fun x => mkQuantity x (unit (edges tb)))).
      apply nth_In. lia. }
    apply (proj2 (no_missing_edges _ _) Hmiss) in Hin.
    apply contains_spec in Hin. cbn [value unit] in Hin.
    destruct Hin as [_ Hin].
    assert (Hsizes : length (magnitudes_in (ContFuncDiscrete.temps cf) K)
                     = length (magnitudes_in (ContFuncDiscrete.values cf)
                                             cm5_per_K)).
    { unfold magnitudes_in. rewrite !length_map.
      unfold ContFuncDiscrete.__init__, size in Hinit.
      destruct (ndim _ =? 1)%nat; [|discriminate].
      destruct (ndim _ =? 1)%nat; [|discriminate].
      destruct (_ =? _)%nat eqn:E; [|discriminate].
      apply Nat.eqb_eq. exact E. }
    destruct (in_combine_left
                (magnitudes_in (ContFuncDiscrete.temps cf) K)
                (magnitudes_in (ContFuncDiscrete.values cf) cm5_per_K)
                (nth (S k) (edges_K tb) 0) Hsizes) as [v Hv].
    { unfold magnitudes_in, edges_K. rewrite nth_scaled. fold r.
      rewrite <- (factor_compose (unit (edges tb))
                                 (unit (ContFuncDiscrete.temps cf)) K).
      rewrite <- Rmult_assoc.
      apply (in_map (fun x => x * factor (unit (ContFuncDiscrete.temps cf)) K)).
      exact Hin. }
    fold (samples cf) in Hv.
    assert (Hb : in_bin (edges_K tb) k (nth (S k) (edges_K tb) 0) = true).
    { apply in_bin_spec. left. split; [|lra].
      rewrite Hes. apply sorted_nth_lt; [exact HS|].
      rewrite <- Hes, length_edges_K. lia. }
    unfold bin_values. intros E. apply map_eq_nil in E.
    assert (Hf : In (nth (S k) (edges_K tb) 0, v)
                    (filter (fun p => in_bin (edges_K tb) k (fst p))
                            (samples cf))).
    { apply filter_In. split; [exact Hv | exact Hb]. }
    rewrite E in Hf. contradiction. }
  split; [exact Hne|].
  rewrite (discrete_binned_sorted cf tb Hinit Hval Hwf Hmiss) in Hrun.
  injection Hrun as <-. cbn [value].
  set (f := fun k => mean (bin_values (edges_K tb) (samples cf) k)).
  rewrite (nth_indep _ (Fin 0) (f 0%nat))
    by (rewrite length_map, length_seq; exact Hk).
  rewrite (map_nth f), seq_nth by exact Hk.
  unfold f. rewrite mean_nan_iff. exact Hne.
Qed.

(** ** Samples outside the grid *)







Lemma init_sizes (cf : ContFuncDiscrete.t) :
  ContFuncDiscrete.__init__ (ContFuncDiscrete.temps cf)
                            (ContFuncDiscrete.values cf) = Ok cf ->
  length (magnitudes_in (ContFuncDiscrete.temps cf) K)
  = length (magnitudes_in (ContFuncDiscrete.values cf) cm5_per_K).
Proof.
  intros Hinit. unfold magnitudes_in. rewrite !length_map.
  unfold ContFuncDiscrete.__init__, size in Hinit.
  destruct (ndim _ =? 1)%nat; [|discriminate].
  destruct (ndim _ =? 1)%nat; [|discriminate].
  destruct (_ =? _)%nat eqn:E; [|discriminate].
  apply Nat.eqb_eq. exact E.
Qed.




(** ** Calls leave the instance as it was *)

Lemma contfunc_binned_run (cf : ContFunc.t) (tb : TempBins) :
  ContFunc.binned tb cf = (fst (ContFunc.binned tb cf), cf).
Proof.
  destruct cf as [g|d]; unfold ContFunc.binned.
  - rewrite gaussian_binned_run. reflexivity.
  - rewrite discrete_binned_run. reflexivity.
Qed.

Lemma contfunc_binned_ok (cf s : ContFunc.t) (tb : TempBins)
  (q : Quantity (list fval)) :
  ContFunc.binned tb cf = (Ok q, s) ->
  s = cf /\ unit q = cm5_per_K /\ length (value q) = n_bins tb.
Proof.
  destruct cf as [g|d]; unfold ContFunc.binned.
  - rewrite gaussian_binned_run. unfold and_then.
    destruct (to_value (bin_centers tb) MK); [|discriminate].
    intros E. injection E as <- <-. cbn [value unit].
    rewrite length_map, length_bin_centers_MK. auto.
  - destruct (ContFuncDiscrete.binned tb d) as [r d'] eqn:E.
    intros E'. injection E' as -> <-.
    destruct (discrete_binned_ok_inv _ _ _ _ E) as (-> & _ & _ & _ & Hu & Hl).
    auto.
Qed.

Lemma I_pred_run (line : EmissionLine.t) (dem : BinnedDEM) :
  EmissionLine.I_pred dem line
  = (and_then (fst (ContFunc.binned (temp_bins dem)
                                    (EmissionLine.cont_func line)))
       (fun cont_func =>
        and_then (mul cont_func (as_float (Dem.values dem))) (fun prod =>
        and_then (mul prod (as_float (bin_widths (temp_bins dem))))
                 (fun prod =>
        to_value (qsum prod) dimensionless_unscaled))),
     line).
Proof.
  unfold EmissionLine.I_pred, bind, EmissionLine.on_cont_func, lift.
  rewrite contfunc_binned_run. destruct line as [cf io sio]. cbn [fst snd
    EmissionLine.cont_func EmissionLine.intensity_obs
    EmissionLine.sigma_intensity_obs and_then].
  destruct (fst (ContFunc.binned (temp_bins dem) cf)) as [g|e];
    [|reflexivity].
  cbn [and_then].
  destruct (mul g (as_float (Dem.values dem))) as [p|e]; [|reflexivity].
  cbn [and_then].
  destruct (mul p (as_float (bin_widths (temp_bins dem)))) as [p2|e];
    reflexivity.
Qed.

(** ** The predicted intensity *)

Lemma multiply_same_length (xs ys : list fval) :
  length xs = length ys ->
  multiply xs ys = Ok (map (fun p => fmul (fst p) (snd p)) (combine xs ys)).
Proof.
  intros E. unfold multiply. rewrite E, Nat.eqb_refl. reflexivity.
Qed.

Lemma product_of_three (g : list fval) (d w : list R) :
  map (fun p => fmul (fst p) (snd p))
      (combine (map (fun p => fmul (fst p) (snd p)) (combine g (map Fin d)))
               (map Fin w))
  = map bin_term (combine (combine g d) w).
Proof.
  revert d w. induction g as [|a g IH]; intros d w; [reflexivity|].
  destruct d as [|b d]; [reflexivity|].
  destruct w as [|c w]; [reflexivity|].
  cbn [map combine fst snd]. rewrite IH. reflexivity.
Qed.

Lemma sum_repeat (r : R) (n : nat) :
  sum (repeat (Fin r) n) = Fin (INR n * r).
Proof.
  unfold sum. induction n as [|n IH].
  - simpl. f_equal. lra.
  - cbn [repeat fold_right]. rewrite IH, S_INR. cbn [fadd]. f_equal. lra.
Qed.

Lemma bin_terms_repeat (g d w : R) (n : nat) :
  map bin_term
      (combine (combine (repeat (Fin g) n) (repeat d n)) (repeat w n))
  = repeat (Fin (g * d * w)) n.
Proof.
  induction n as [|n IH]; [reflexivity|].
  cbn [repeat combine map]. rewrite IH. reflexivity.
Qed.

(** The result of [I_pred] once the contribution function is binned and
    the DEM has one value per bin. *)
Lemma I_pred_after_binned (line : EmissionLine.t) (dem : BinnedDEM)
  (g : Quantity (list fval)) (s : ContFunc.t) :
  ContFunc.binned (temp_bins dem) (EmissionLine.cont_func line) = (Ok g, s) ->
  length (value (Dem.values dem)) = n_bins (temp_bins dem) ->
  EmissionLine.I_pred dem line
  = (to_value
       (mkQuantity
          (sum (map bin_term
                    (combine (combine (value g) (value (Dem.values dem)))
                             (value (bin_widths (temp_bins dem))))))
          (product_unit g dem))
       dimensionless_unscaled,
     line).
Proof.
  intros Hb Hd.
  destruct (contfunc_binned_ok _ _ _ _ Hb) as (_ & _ & Hg).
  rewrite I_pred_run, Hb. cbn [fst and_then].
  unfold mul. cbn [as_float value unit].
  rewrite multiply_same_length by (rewrite length_map; congruence).
  cbn [and_then value unit bin_widths].
  rewrite multiply_same_length.
  2:{ rewrite !length_map, length_combine, length_map, length_diff.
      rewrite Hg, Hd. unfold n_bins. lia. }
  cbn [and_then]. rewrite product_of_three. reflexivity.
Qed.

(** C1. When the contribution function of the line is binned on the grid
    of the DEM and the DEM has one value per bin, [I_pred] sums over the
    bins the product of binned contribution function, DEM value and bin
    width, and returns that sum expressed in the dimensionless unit,
    provided the unit of the product is dimensionless.  If the binned
    contribution function is [g] in every bin, the DEM value [d] in every
    bin and every bin is [w] wide, the result is [N * g * d * w] (times the
    scale of the unit of the product), [N] being the number of bins. *)
Theorem I_pred_sum_of_products
  (line : EmissionLine.t) (dem : BinnedDEM) (g : Quantity (list fval)) :
  ContFunc.binned (temp_bins dem) (EmissionLine.cont_func line)
  = (Ok g, EmissionLine.cont_func line) ->
  length (value (Dem.values dem)) = n_bins (temp_bins dem) ->
  dims (product_unit g dem) = dims dimensionless_unscaled ->
  let N := n_bins (temp_bins dem) in
  let k := factor (product_unit g dem) dimensionless_unscaled in
  EmissionLine.I_pred dem line
  = (Ok (fmul (sum (map bin_term
                        (combine (combine (value g) (value (Dem.values dem)))
                                 (diff (value (edges (temp_bins dem)))))))
              (Fin k)),
     line)
  /\ forall gc d w : R,
       value g = repeat (Fin gc) N ->
       value (Dem.values dem) = repeat d N ->
       diff (value (edges (temp_bins dem))) = repeat w N ->
       EmissionLine.I_pred dem line = (Ok (Fin (INR N * gc * d * w * k)), line).
Proof.
  intros Hb Hd Hu N k.
  rewrite (I_pred_after_binned line dem g _ Hb Hd).
  rewrite (to_value_ok _ dimensionless_unscaled)
    by (cbn [unit]; exact Hu).
  cbn [value unit bin_widths]. fold k.
  change (scale_by k ?x) with (fmul x (Fin k)).
  split; [reflexivity|].
  intros gc d w Eg Ed Ew. rewrite Eg, Ed, Ew.
  rewrite bin_terms_repeat, sum_repeat. cbn [fmul].
  do 3 f_equal. fold N. ring.
Qed.

Lemma ex_constant_binned :
  ContFunc.binned ex_grid_unit (ContFunc.Discrete ex_constant)
  = (Ok (mkQuantity [Fin 7; Fin 7] cm5_per_K), ContFunc.Discrete ex_constant).
Proof.
  unfold ContFunc.binned.
  rewrite discrete_binned_sorted.
  - unfold ex_grid_unit, ex_constant. unfold_bins.
    decide_reals. cbn -[Rmult Rplus Rminus Rdiv Rinv Ropp IZR].
    do 3 f_equal.
    apply f_equal2; [apply f_equal; lra|].
    apply f_equal2; [apply f_equal; lra | reflexivity].
  - reflexivity.
  - reflexivity.
  - split; [reflexivity|]. split; [discriminate|].
    simpl. repeat constructor; lra.
  - rewrite missing_edges_filter. unfold ex_grid_unit, ex_constant.
    unfold_units. unfold Reqb. decide_reals. reflexivity.
Qed.

Lemma ex_grid_unit_widths :
  diff (value (edges ex_grid_unit)) = repeat 1 2.
Proof.
  simpl. apply f_equal2; [lra|]. apply f_equal2; [lra | reflexivity].
Qed.

Lemma I_pred_sum_of_products_example :
  EmissionLine.I_pred ex_dem ex_line
  = (Ok (Fin (INR 2 * 7 * 2 * 1
              * factor (product_unit (mkQuantity [Fin 7; Fin 7] cm5_per_K)
                                     ex_dem)
                       dimensionless_unscaled)),
     ex_line).
Proof.
  exact (proj2 (I_pred_sum_of_products
                  ex_line ex_dem (mkQuantity [Fin 7; Fin 7] cm5_per_K)
                  ex_constant_binned eq_refl eq_refl)
               7 2 1 eq_refl eq_refl ex_grid_unit_widths).
Defined.

(** C8. [I_pred] raises whatever the contribution function's [binned]
    raises.  When [binned] returns: if the unit of the product of binned
    contribution function, DEM values and bin widths is not dimensionless,
    [I_pred] raises (the unit conversion error when the DEM has one value
    per bin); if that unit is dimensionless and the DEM has one value per
    bin, [I_pred] returns a bare number, with no unit attached.  In each
    case the line is left as it was. *)
Theorem I_pred_failures (line : EmissionLine.t) (dem : BinnedDEM) :
  (forall (e : exception) (s : ContFunc.t),
      ContFunc.binned (temp_bins dem) (EmissionLine.cont_func line)
      = (Err e, s) ->
      EmissionLine.I_pred dem line = (Err e, line))
  /\ (forall (g : Quantity (list fval)) (s : ContFunc.t),
        ContFunc.binned (temp_bins dem) (EmissionLine.cont_func line)
        = (Ok g, s) ->
        (dims (product_unit g dem) <> dims dimensionless_unscaled ->
         exists e, EmissionLine.I_pred dem line = (Err e, line))
        /\ (dims (product_unit g dem) <> dims dimensionless_unscaled ->
            length (value (Dem.values dem)) = n_bins (temp_bins dem) ->
            EmissionLine.I_pred dem line
            = (Err (UnitConversionError (product_unit g dem)
                                        dimensionless_unscaled), line))
        /\ (dims (product_unit g dem) = dims dimensionless_unscaled ->
            length (value (Dem.values dem)) = n_bins (temp_bins dem) ->
            exists r : fval, EmissionLine.I_pred dem line = (Ok r, line))).
Proof.
  split.
  - intros e s Hb. rewrite I_pred_run, Hb. reflexivity.
  - intros g s Hb. split; [|split].
    + intros Hu. rewrite I_pred_run, Hb. cbn [fst and_then].
      unfold mul.
      destruct (multiply (value g) (value (as_float (Dem.values dem))))
        as [p|e]; [|eexists; reflexivity].
      cbn [and_then value unit].
      destruct (multiply p (value (as_float (bin_widths (temp_bins dem)))))
        as [p2|e]; [|eexists; reflexivity].
      cbn [and_then]. eexists. rewrite to_value_err; [reflexivity|].
      exact Hu.
    + intros Hu Hd. rewrite (I_pred_after_binned line dem g s Hb Hd).
      rewrite to_value_err by exact Hu. reflexivity.
    + intros Hu Hd. rewrite (I_pred_after_binned line dem g s Hb Hd).
      rewrite to_value_ok by exact Hu. eexists. reflexivity.
Qed.

Lemma I_pred_failures_example :
  EmissionLine.I_pred ex_dem_per_K ex_line
  = (Err (UnitConversionError
            (product_unit (mkQuantity [Fin 7; Fin 7] cm5_per_K) ex_dem_per_K)
            dimensionless_unscaled),
     ex_line)
  /\ exists r : fval, EmissionLine.I_pred ex_dem ex_line = (Ok r, ex_line).
Proof.
  split.
  - apply (proj1 (proj2 (proj2 (I_pred_failures ex_line ex_dem_per_K)
                                 _ _ ex_constant_binned))).
    + discriminate.
    + reflexivity.
  - apply (proj2 (proj2 (proj2 (I_pred_failures ex_line ex_dem)
                                 _ _ ex_constant_binned))).
    + reflexivity.
    + reflexivity.
Defined.

(** * Further properties of the module *)

(** ** Construction and units of the Gaussian contribution function *)

(** Construction of a Gaussian contribution function converts the width,
    then the center, to MK: it succeeds exactly when both are temperatures
    and then keeps both quantities and their magnitudes in MK; a width that
    is not a temperature is reported first, whatever the center is. *)
Theorem gaussian_init_requires_temperatures (c w : Quantity R) :
  (dims (unit w) = dims K -> dims (unit c) = dims K ->
   ContFuncGaussian.__init__ c w
   = Ok (ContFuncGaussian.mk w c (value w * factor (unit w) MK)
                             (value c * factor (unit c) MK)))
  /\ (dims (unit w) <> dims K ->
      ContFuncGaussian.__init__ c w = Err (UnitConversionError (unit w) MK))
  /\ (dims (unit w) = dims K -> dims (unit c) <> dims K ->
      ContFuncGaussian.__init__ c w = Err (UnitConversionError (unit c) MK))
  /\ ((exists cf, ContFuncGaussian.__init__ c w = Ok cf)
      <-> dims (unit w) = dims K /\ dims (unit c) = dims K).
Proof.
  assert (H1 : dims (unit w) = dims K -> dims (unit c) = dims K ->
               ContFuncGaussian.__init__ c w
               = Ok (ContFuncGaussian.mk w c (value w * factor (unit w) MK)
                                         (value c * factor (unit c) MK))).
  { intros Hw Hc. unfold ContFuncGaussian.__init__.
    rewrite (to_value_ok w MK Hw), (to_value_ok c MK Hc). reflexivity. }
  assert (H2 : dims (unit w) <> dims K ->
               ContFuncGaussian.__init__ c w
               = Err (UnitConversionError (unit w) MK)).
  { intros Hw. unfold ContFuncGaussian.__init__.
    rewrite (to_value_err w MK Hw). reflexivity. }
  assert (H3 : dims (unit w) = dims K -> dims (unit c) <> dims K ->
               ContFuncGaussian.__init__ c w
               = Err (UnitConversionError (unit c) MK)).
  { intros Hw Hc. unfold ContFuncGaussian.__init__.
    rewrite (to_value_ok w MK Hw), (to_value_err c MK Hc). reflexivity. }
  split; [exact H1|]. split; [exact H2|]. split; [exact H3|].
  split.
  - intros [cf Hcf].
    destruct (dim_eqb (dims (unit w)) (dims K)) eqn:Dw.
    + apply dim_eqb_eq in Dw. split; [exact Dw|].
      destruct (dim_eqb (dims (unit c)) (dims K)) eqn:Dc.
      * apply dim_eqb_eq. exact Dc.
      * rewrite H3 in Hcf; [discriminate | exact Dw |].
        intros E. apply dim_eqb_eq in E. congruence.
    + rewrite H2 in Hcf; [discriminate|].
      intros E. apply dim_eqb_eq in E. congruence.
  - intros [Hw Hc]. eexists. apply H1; assumption.
Qed.

Lemma midpoints_scale (l : list R) (k : R) :
  midpoints (map (fun x => x * k) l) = map (fun x => x * k) (midpoints l).
Proof.
  induction l as [|a [|b t] IH]; try reflexivity.
  change (midpoints (map (fun x => x * k) (a :: b :: t)))
    with ((a * k + b * k) / 2 :: midpoints (map (fun x => x * k) (b :: t))).
  rewrite IH.
  change (midpoints (a :: b :: t)) with ((a + b) / 2 :: midpoints (b :: t)).
  cbn [map]. f_equal. lra.
Qed.

Lemma bin_centers_MK_from_K (tb : TempBins) :
  _bin_centers_MK tb
  = map (fun x => x * factor K MK) (midpoints (edges_K tb)).
Proof.
  unfold _bin_centers_MK, edges_K, bin_centers, scale_by, Scalable_list.
  cbn [value]. rewrite midpoints_scale, map_map.
  apply map_ext. intros x.
  rewrite <- (factor_compose (unit (edges tb)) K MK). lra.
Qed.

(** The binned Gaussian does not depend on the units its parameters and
    the grid are written in: two contribution functions built from the same
    center and width, and two temperature grids with the same edges, give
    the same call result, whatever the units on either side. *)
Theorem gaussian_binned_unit_independent
  (c1 w1 c2 w2 : Quantity R) (cf1 cf2 : ContFuncGaussian.t)
  (tb1 tb2 : TempBins) :
  ContFuncGaussian.__init__ c1 w1 = Ok cf1 ->
  ContFuncGaussian.__init__ c2 w2 = Ok cf2 ->
  value c1 * factor (unit c1) K = value c2 * factor (unit c2) K ->
  value w1 * factor (unit w1) K = value w2 * factor (unit w2) K ->
  dims (unit (edges tb1)) = dims K ->
  dims (unit (edges tb2)) = dims K ->
  edges_K tb1 = edges_K tb2 ->
  fst (ContFuncGaussian.binned tb1 cf1) = fst (ContFuncGaussian.binned tb2 cf2).
Proof.
  intros Hi1 Hi2 Hc Hw HT1 HT2 He.
  destruct (gaussian_init_fields _ _ _ Hi1) as (_ & _ & Hc1 & Hw1).
  destruct (gaussian_init_fields _ _ _ Hi2) as (_ & _ & Hc2 & Hw2).
  rewrite (gaussian_binned_ok cf1 tb1 HT1), (gaussian_binned_ok cf2 tb2 HT2).
  cbn [fst]. rewrite !bin_centers_MK_from_K, He.
  assert (Ec : ContFuncGaussian._center_MK cf1 = ContFuncGaussian._center_MK cf2).
  { rewrite Hc1, Hc2.
    rewrite <- (factor_compose (unit c1) K MK), <- (factor_compose (unit c2) K MK).
    rewrite <- !Rmult_assoc, Hc. reflexivity. }
  assert (Ew : ContFuncGaussian._width_MK cf1 = ContFuncGaussian._width_MK cf2).
  { rewrite Hw1, Hw2.
    rewrite <- (factor_compose (unit w1) K MK), <- (factor_compose (unit w2) K MK).
    rewrite <- !Rmult_assoc, Hw. reflexivity. }
  rewrite Ec, Ew. reflexivity.
Qed.

Lemma gaussian_binned_unit_independent_example :
  fst (ContFuncGaussian.binned ex_grid_MK ex_gaussian)
  = fst (ContFuncGaussian.binned ex_grid_K ex_gaussian_K).
Proof.
  apply (gaussian_binned_unit_independent
           ex_center ex_width ex_center_K ex_width_K).
  - reflexivity.
  - reflexivity.
  - unfold factor. simpl. lra.
  - unfold factor. simpl. lra.
  - reflexivity.
  - reflexivity.
  - unfold edges_K, factor. simpl.
    apply f_equal2; [lra|]. apply f_equal2; [lra|].
    apply f_equal2; [lra | reflexivity].
Defined.

(** [binned] of a Gaussian contribution function raises exactly on the
    grids whose edges are not temperatures, and what it raises is the unit
    conversion error of the bin centers, although the converted centers are
    never used. *)
Theorem gaussian_binned_fails_iff_not_temperature
  (cf : ContFuncGaussian.t) (tb : TempBins) :
  ((exists e, fst (ContFuncGaussian.binned tb cf) = Err e)
   <-> dims (unit (edges tb)) <> dims K)
  /\ (forall e, fst (ContFuncGaussian.binned tb cf) = Err e ->
                e = UnitConversionError (unit (edges tb)) MK).
Proof.
  rewrite gaussian_binned_run. cbn [fst].
  destruct (dim_eqb (dims (unit (edges tb))) (dims K)) eqn:D.
  - apply dim_eqb_eq in D.
    rewrite (to_value_ok (bin_centers tb) MK) by exact D. cbn [and_then].
    split; [|intros e; discriminate].
    split; [intros [e He]; discriminate | intros N; contradiction].
  - assert (N : dims (unit (edges tb)) <> dims K).
    { intros E. apply dim_eqb_eq in E. congruence. }
    rewrite (to_value_err (bin_centers tb) MK) by exact N. cbn [and_then].
    split.
    + split; [intros _; exact N | intros _; eexists; reflexivity].
    + intros e E. injection E as <-. reflexivity.
Qed.

Lemma gaussian_binned_fails_on_lengths :
  fst (ContFuncGaussian.binned ex_grid_cm ex_gaussian)
  = Err (UnitConversionError cm MK).
Proof.
  destruct (proj2 (proj1 (gaussian_binned_fails_iff_not_temperature
                            ex_gaussian ex_grid_cm))) as [e He].
  - discriminate.
  - rewrite He. f_equal.
    apply (proj2 (gaussian_binned_fails_iff_not_temperature
                    ex_gaussian ex_grid_cm) e He).
Defined.

Lemma profile_width_sign (c w x : R) :
  ContFuncGaussian.profile c (- w) x = ContFuncGaussian.profile c w x.
Proof.
  unfold ContFuncGaussian.profile.
  destruct (Req_dec_T w 0) as [->|Hw].
  - rewrite Ropp_0. destruct (Req_dec_T 0 0); [reflexivity|contradiction].
  - destruct (Req_dec_T (- w) 0) as [E|_]; [lra|].
    do 3 f_equal. unfold Rdiv. rewrite Rinv_opp. simpl. lra.
Qed.

(** The binned Gaussian of nonzero width: real numbers from 0 to 1e6. *)
Lemma gaussian_binned_finite (cf : ContFuncGaussian.t) (tb : TempBins) :
  ContFuncGaussian._width_MK cf <> 0 ->
  dims (unit (edges tb)) = dims K ->
  exists vs : list R,
    ContFuncGaussian.binned tb cf
    = (Ok (mkQuantity (map Fin vs) cm5_per_K), cf)
    /\ length vs = n_bins tb
    /\ Forall (fun v => 0 <= v <= 1e6) vs.
Proof.
  intros Hw T.
  set (g := fun x => np_exp (- (((ContFuncGaussian._center_MK cf - x)
                                 / ContFuncGaussian._width_MK cf) ^ 2)) * 1e6).
  exists (map g (_bin_centers_MK tb)). split; [|split].
  - rewrite gaussian_binned_ok by exact T. do 3 f_equal.
    rewrite map_map. apply map_ext. intros x.
    apply profile_nonzero_width. exact Hw.
  - rewrite length_map. apply length_bin_centers_MK.
  - apply Forall_forall. intros v Hv. apply in_map_iff in Hv.
    destruct Hv as (x & <- & _). unfold g.
    set (t := ((ContFuncGaussian._center_MK cf - x)
               / ContFuncGaussian._width_MK cf) ^ 2).
    pose proof (pow2_ge_0 ((ContFuncGaussian._center_MK cf - x)
                           / ContFuncGaussian._width_MK cf)) as H0.
    fold t in H0.
    pose proof (np_exp_nonnegative (- t)).
    pose proof (np_exp_le_1 (- t) ltac:(lra)).
    lra.
Qed.

(** Whatever the sign of a nonzero width, every value of the binned
    Gaussian is a real number from 0 to 1e6 (0 is reached when the
    exponential underflows); and a contribution function with the opposite
    width gives the same result. *)
Theorem gaussian_binned_bounded_any_sign
  (cf : ContFuncGaussian.t) (tb : TempBins) :
  ContFuncGaussian._width_MK cf <> 0 ->
  dims (unit (edges tb)) = dims K ->
  (exists vs : list R,
      ContFuncGaussian.binned tb cf
      = (Ok (mkQuantity (map Fin vs) cm5_per_K), cf)
      /\ length vs = n_bins tb
      /\ Forall (fun v => 0 <= v <= 1e6) vs)
  /\ forall cf' : ContFuncGaussian.t,
       ContFuncGaussian._center_MK cf' = ContFuncGaussian._center_MK cf ->
       ContFuncGaussian._width_MK cf' = - ContFuncGaussian._width_MK cf ->
       fst (ContFuncGaussian.binned tb cf')
       = fst (ContFuncGaussian.binned tb cf).
Proof.
  intros Hw T. split.
  - apply gaussian_binned_finite; assumption.
  - intros cf' Ec Ew. rewrite !gaussian_binned_ok by exact T.
    cbn [fst]. rewrite Ec, Ew. do 2 f_equal.
    apply map_ext. intros x. apply profile_width_sign.
Qed.

Lemma gaussian_binned_bounded_example :
  exists vs : list R,
    ContFuncGaussian.binned ex_grid_MK ex_gaussian
    = (Ok (mkQuantity (map Fin vs) cm5_per_K), ex_gaussian)
    /\ length vs = n_bins ex_grid_MK
    /\ Forall (fun v => 0 <= v <= 1e6) vs.
Proof.
  apply (gaussian_binned_bounded_any_sign ex_gaussian ex_grid_MK).
  - unfold ex_gaussian, scale_by, Scalable_R, factor. simpl. lra.
  - reflexivity.
Defined.

(** ** Errors of the discrete contribution function *)

(** Construction does not look at units.  When the sample points are not
    in a unit of the grid's dimension, no edge compares equal to any of
    them, and [binned] on a grid with at least one edge raises the
    missing-edge error listing every edge of the grid. *)
Theorem discrete_binned_foreign_temps_unit
  (cf : ContFuncDiscrete.t) (tb : TempBins) :
  dims (unit (edges tb)) <> dims (unit (ContFuncDiscrete.temps cf)) ->
  value (edges tb) <> [] ->
  ContFuncDiscrete.binned tb cf
  = (Err (ValueError_missing_bin_edges (iter (edges tb))), cf).
Proof.
  intros Hd Hne. rewrite discrete_binned_run, missing_edges_filter.
  assert (E : forall l : list R,
             filter (fun t => negb (contains (ContFuncDiscrete.temps cf) t))
                    (map (fun x => mkQuantity x (unit (edges tb))) l)
             = map (fun x => mkQuantity x (unit (edges tb))) l).
  { induction l as [|a l IH]; [reflexivity|].
    cbn [map filter].
    destruct (contains (ContFuncDiscrete.temps cf)
                       (mkQuantity a (unit (edges tb)))) eqn:C.
    - apply contains_spec in C. destruct C as [C _]. contradiction.
    - cbn [negb]. rewrite IH. reflexivity. }
  unfold iter. rewrite E.
  destruct (value (edges tb)); [contradiction | reflexivity].
Qed.

Lemma discrete_binned_foreign_temps_unit_example :
  ContFuncDiscrete.binned ex_grid_cm ex_discrete
  = (Err (ValueError_missing_bin_edges (iter (edges ex_grid_cm))), ex_discrete).
Proof.
  apply discrete_binned_foreign_temps_unit; discriminate.
Defined.

(** For an instance built by the constructor with its sample points in K
    and a well-formed grid in K, [binned] has three outcomes and no other:
    the missing-edge error, when some edge is not a sample point; the unit
    conversion error of [values], when every edge is a sample point and
    [values] is not in a unit of cm^5/K; a result otherwise.  No pandas
    error reaches the caller. *)
Theorem discrete_binned_outcomes_in_K
  (cf : ContFuncDiscrete.t) (tb : TempBins) :
  ContFuncDiscrete.__init__ (ContFuncDiscrete.temps cf)
                            (ContFuncDiscrete.values cf) = Ok cf ->
  unit (ContFuncDiscrete.temps cf) = K ->
  unit (edges tb) = K ->
  well_formed tb ->
  let missing := ContFuncDiscrete.missing_edges (ContFuncDiscrete.temps cf)
                                                (iter (edges tb)) in
  (missing <> [] ->
   ContFuncDiscrete.binned tb cf
   = (Err (ValueError_missing_bin_edges missing), cf))
  /\ (missing = [] ->
      dims (unit (ContFuncDiscrete.values cf)) <> dims cm5_per_K ->
      ContFuncDiscrete.binned tb cf
      = (Err (UnitConversionError (unit (ContFuncDiscrete.values cf))
                                  cm5_per_K), cf))
  /\ (missing = [] ->
      dims (unit (ContFuncDiscrete.values cf)) = dims cm5_per_K ->
      exists q, ContFuncDiscrete.binned tb cf = (Ok q, cf)).
Proof.
  intros Hinit _ _ Hwf missing. split; [|split].
  - intros Hm. rewrite discrete_binned_run. fold missing.
    destruct missing; [contradiction | reflexivity].
  - intros Hm Hv. rewrite discrete_binned_run. fold missing. rewrite Hm.
    rewrite (to_value_ok _ K (check_passes_temperature cf tb Hwf Hm)).
    cbn [and_then]. rewrite (to_value_err _ cm5_per_K Hv). reflexivity.
  - intros Hm Hv. eexists.
    apply discrete_binned_sorted; assumption.
Qed.

Lemma discrete_binned_outcomes_example :
  exists q, ContFuncDiscrete.binned ex_grid ex_discrete = (Ok q, ex_discrete).
Proof.
  apply (proj2 (proj2 (discrete_binned_outcomes_in_K ex_discrete ex_grid
                         eq_refl eq_refl eq_refl ex_grid_well_formed))).
  - exact ex_discrete_edges_present.
  - reflexivity.
Defined.

(** ** Values of the binned discrete contribution function *)

Lemma Rsum_bounds (l : list R) (lo hi : R) :
  Forall (fun v => lo <= v <= hi) l ->
  INR (length l) * lo <= Rsum l <= INR (length l) * hi.
Proof.
  unfold Rsum. induction 1 as [|v l Hv _ IH].
  - simpl. lra.
  - cbn [length fold_right]. rewrite S_INR. cbn beta in Hv. nra.
Qed.

Lemma mean_bounds (l : list R) (lo hi : R) :
  l <> [] ->
  Forall (fun v => lo <= v <= hi) l ->
  exists r, mean l = Fin r /\ lo <= r <= hi.
Proof.
  intros Hne HF. pose proof (Rsum_bounds l lo hi HF) as HB.
  destruct l as [|a l]; [contradiction|].
  eexists. split; [reflexivity|].
  set (n := INR (length (a :: l))) in *.
  assert (Hn : 0 < n) by (apply lt_0_INR; simpl; lia).
  unfold Rdiv.
  split; apply Rmult_le_reg_r with n; try exact Hn;
    rewrite Rmult_assoc, Rinv_l by lra; lra.
Qed.

(** When the sample points and the grid are both written in K, every
    entry of a successful [binned] on a well-formed grid is a real number,
    not a not-a-number, and lies between any two bounds that enclose all
    the tabulated values: averaging never leaves the range of the table. *)
Theorem discrete_binned_within_value_range_in_K
  (cf s : ContFuncDiscrete.t) (tb : TempBins) (q : Quantity (list fval))
  (lo hi : R) :
  unit (ContFuncDiscrete.temps cf) = K ->
  unit (edges tb) = K ->
  well_formed tb ->
  ContFuncDiscrete.binned tb cf = (Ok q, s) ->
  Forall (fun v => lo <= v <= hi)
         (magnitudes_in (ContFuncDiscrete.values cf) cm5_per_K) ->
  forall k, (k < n_bins tb)%nat ->
            exists r, nth k (value q) NaN = Fin r /\ lo <= r <= hi.
Proof.
  intros _ _ Hwf Hrun HF k Hk.
  destruct (discrete_binned_bins_nonempty cf s tb q Hwf Hrun k Hk) as [Hne _].
  destruct (discrete_binned_ok_inv _ _ _ _ Hrun)
    as (-> & Hmiss & Hinit & Hval & _ & _).
  rewrite (discrete_binned_sorted cf tb Hinit Hval Hwf Hmiss) in Hrun.
  injection Hrun as <-. cbn [value].
  set (f := fun k => mean (bin_values (edges_K tb) (samples cf) k)).
  rewrite (nth_indep _ NaN (f 0%nat))
    by (rewrite length_map, length_seq; exact Hk).
  rewrite (map_nth f), seq_nth by exact Hk. unfold f.
  apply mean_bounds; [exact Hne|].
  apply Forall_forall. intros v Hv. unfold bin_values in Hv.
  apply in_map_iff in Hv. destruct Hv as ([x v'] & <- & Hin).
  apply filter_In in Hin. destruct Hin as [Hin _].
  unfold samples in Hin. apply in_combine_r in Hin.
  rewrite Forall_forall in HF. apply HF. exact Hin.
Qed.

Lemma discrete_binned_within_value_range_example :
  (exists r, nth 0 [Fin 20; Fin 45] NaN = Fin r /\ 10 <= r <= 50)
  /\ (exists r, nth 1 [Fin 20; Fin 45] NaN = Fin r /\ 10 <= r <= 50).
Proof.
  assert (HF : Forall (fun v => 10 <= v <= 50)
                      (magnitudes_in (ContFuncDiscrete.values ex_discrete)
                                     cm5_per_K)).
  { unfold magnitudes_in, factor. simpl. repeat constructor; lra. }
  split.
  - apply (discrete_binned_within_value_range_in_K
             ex_discrete ex_discrete ex_grid
             (mkQuantity [Fin 20; Fin 45] cm5_per_K) 10 50
             eq_refl eq_refl
             ex_grid_well_formed ex_discrete_binned HF 0%nat).
    unfold n_bins. simpl. lia.
  - apply (discrete_binned_within_value_range_in_K
             ex_discrete ex_discrete ex_grid
             (mkQuantity [Fin 20; Fin 45] cm5_per_K) 10 50
             eq_refl eq_refl
             ex_grid_well_formed ex_discrete_binned HF 1%nat).
    unfold n_bins. simpl. lia.
Defined.

(** ** Order of the samples *)

Lemma Rsum_permutation (l l' : list R) :
  Permutation l l' -> Rsum l = Rsum l'.
Proof.
  unfold Rsum. induction 1; cbn [fold_right]; lra.
Qed.

Lemma mean_permutation (l l' : list R) :
  Permutation l l' -> mean l = mean l'.
Proof.
  intros P. pose proof (Permutation_length P) as HL.
  pose proof (Rsum_permutation l l' P) as HS.
  destruct l as [|a l], l' as [|a' l']; try discriminate; [reflexivity|].
  unfold mean. rewrite HS, HL. reflexivity.
Qed.

Lemma filter_permutation {A} (p : A -> bool) (l l' : list A) :
  Permutation l l' -> Permutation (filter p l) (filter p l').
Proof.
  induction 1 as [|x l l' _ IH|x y l|l l' l'' _ IH1 _ IH2].
  - constructor.
  - cbn [filter]. destruct (p x); [constructor|]; exact IH.
  - cbn [filter]. destruct (p x), (p y);
      try apply Permutation_refl. apply perm_swap.
  - eapply Permutation_trans; eassumption.
Qed.

Lemma map_fst_combine_same {A B} (l1 : list A) (l2 : list B) :
  length l1 = length l2 -> map fst (combine l1 l2) = l1.
Proof.
  revert l2. induction l1 as [|a l1 IH]; intros [|b l2] H;
    try discriminate; [reflexivity|].
  cbn [combine map fst]. rewrite IH by (simpl in H; lia). reflexivity.
Qed.

Lemma samples_as_map (cf : ContFuncDiscrete.t) :
  samples cf
  = map (fun p => (fst p * factor (unit (ContFuncDiscrete.temps cf)) K,
                   snd p * factor (unit (ContFuncDiscrete.values cf)) cm5_per_K))
        (combine (data (value (ContFuncDiscrete.temps cf)))
                 (data (value (ContFuncDiscrete.values cf)))).
Proof.
  unfold samples, magnitudes_in.
  generalize (data (value (ContFuncDiscrete.values cf))) as vs.
  induction (data (value (ContFuncDiscrete.temps cf))) as [|t ts IH];
    intros [|v vs]; try reflexivity.
  cbn [map combine fst snd]. rewrite IH. reflexivity.
Qed.

Lemma init_raw_sizes (cf : ContFuncDiscrete.t) :
  ContFuncDiscrete.__init__ (ContFuncDiscrete.temps cf)
                            (ContFuncDiscrete.values cf) = Ok cf ->
  length (data (value (ContFuncDiscrete.temps cf)))
  = length (data (value (ContFuncDiscrete.values cf))).
Proof.
  intros H. pose proof (init_sizes cf H) as E.
  unfold magnitudes_in in E. rewrite !length_map in E. exact E.
Qed.

Lemma existsb_permutation {A} (p : A -> bool) (l l' : list A) :
  Permutation l l' -> existsb p l = existsb p l'.
Proof.
  intros P. destruct (existsb p l) eqn:E1, (existsb p l') eqn:E2;
    try reflexivity.
  - apply existsb_exists in E1. destruct E1 as (x & Hx & Hp).
    assert (existsb p l' = true)
      by (apply existsb_exists; exists x; split;
          [eapply Permutation_in; eassumption | exact Hp]).
    congruence.
  - apply existsb_exists in E2. destruct E2 as (x & Hx & Hp).
    assert (existsb p l = true)
      by (apply existsb_exists; exists x; split;
          [eapply Permutation_in; [apply Permutation_sym|]; eassumption
          | exact Hp]).
    congruence.
Qed.

(** The order in which the samples are tabulated does not matter, and the
    sample points need not be sorted: two discrete contribution functions
    in the same units whose (sample point, value) pairs are a rearrangement
    of one another give the same call result on every well-formed grid,
    errors included. *)
Theorem discrete_binned_sample_order_irrelevant
  (cf1 cf2 : ContFuncDiscrete.t) (tb : TempBins) :
  ContFuncDiscrete.__init__ (ContFuncDiscrete.temps cf1)
                            (ContFuncDiscrete.values cf1) = Ok cf1 ->
  ContFuncDiscrete.__init__ (ContFuncDiscrete.temps cf2)
                            (ContFuncDiscrete.values cf2) = Ok cf2 ->
  unit (ContFuncDiscrete.temps cf1) = unit (ContFuncDiscrete.temps cf2) ->
  unit (ContFuncDiscrete.values cf1) = unit (ContFuncDiscrete.values cf2) ->
  Permutation (combine (data (value (ContFuncDiscrete.temps cf1)))
                       (data (value (ContFuncDiscrete.values cf1))))
              (combine (data (value (ContFuncDiscrete.temps cf2)))
                       (data (value (ContFuncDiscrete.values cf2)))) ->
  well_formed tb ->
  fst (ContFuncDiscrete.binned tb cf1) = fst (ContFuncDiscrete.binned tb cf2).
Proof.
  intros Hi1 Hi2 Hut Huv P Hwf.
  assert (Pt : Permutation (data (value (ContFuncDiscrete.temps cf1)))
                           (data (value (ContFuncDiscrete.temps cf2)))).
  { rewrite <- (map_fst_combine_same _ _ (init_raw_sizes cf1 Hi1)).
    rewrite <- (map_fst_combine_same _ _ (init_raw_sizes cf2 Hi2)).
    apply Permutation_map. exact P. }
  assert (Ps : Permutation (samples cf1) (samples cf2)).
  { rewrite !samples_as_map, Hut, Huv. apply Permutation_map. exact P. }
  assert (Hmiss : ContFuncDiscrete.missing_edges (ContFuncDiscrete.temps cf1)
                                                 (iter (edges tb))
                  = ContFuncDiscrete.missing_edges (ContFuncDiscrete.temps cf2)
                                                   (iter (edges tb))).
  { rewrite !missing_edges_filter. apply filter_ext. intros t. f_equal.
    unfold contains. rewrite <- Hut.
    destruct (to_value t (unit (ContFuncDiscrete.temps cf1))); [|reflexivity].
    apply existsb_permutation. exact Pt. }
  destruct (ContFuncDiscrete.missing_edges (ContFuncDiscrete.temps cf1)
                                           (iter (edges tb))) as [|t0 rest] eqn:M1.
  - symmetry in Hmiss.
    destruct (dim_eqb (dims (unit (ContFuncDiscrete.values cf1)))
                      (dims cm5_per_K)) eqn:D.
    + apply dim_eqb_eq in D.
      rewrite (discrete_binned_sorted cf1 tb Hi1 D Hwf M1).
      rewrite (discrete_binned_sorted cf2 tb Hi2)
        by (try assumption; rewrite <- Huv; exact D).
      cbn [fst]. do 2 f_equal. apply map_ext. intros k.
      apply mean_permutation. unfold bin_values.
      apply Permutation_map, filter_permutation. exact Ps.
    + assert (N : dims (unit (ContFuncDiscrete.values cf1)) <> dims cm5_per_K).
      { intros E. apply dim_eqb_eq in E. congruence. }
      rewrite !discrete_binned_run, M1, Hmiss. cbn [fst].
      rewrite (to_value_ok _ K (check_passes_temperature cf1 tb Hwf M1)).
      rewrite (to_value_ok _ K (check_passes_temperature cf2 tb Hwf Hmiss)).
      cbn [and_then].
      rewrite (to_value_err _ cm5_per_K N).
      rewrite (to_value_err (ContFuncDiscrete.values cf2) cm5_per_K)
        by (rewrite <- Huv; exact N).
      cbn [and_then]. rewrite Huv. reflexivity.
  - rewrite !discrete_binned_run, M1, <- Hmiss. reflexivity.
Qed.

Lemma discrete_binned_sample_order_irrelevant_example :
  fst (ContFuncDiscrete.binned ex_grid ex_discrete)
  = fst (ContFuncDiscrete.binned ex_grid ex_discrete_shuffled).
Proof.
  apply discrete_binned_sample_order_irrelevant.
  - reflexivity.
  - reflexivity.
  - reflexivity.
  - reflexivity.
  - simpl.
    apply Permutation_trans
      with [(1, 10); (3, 30); (2, 20); (4, 40); (5, 50)].
    { apply perm_skip. apply perm_swap. }
    apply Permutation_trans
      with [(3, 30); (1, 10); (2, 20); (4, 40); (5, 50)].
    { apply perm_swap. }
    do 2 apply perm_skip.
    apply Permutation_trans with [(2, 20); (5, 50); (4, 40)].
    { apply perm_skip. apply perm_swap. }
    apply perm_swap.
  - exact ex_grid_well_formed.
Defined.

(** ** The predicted intensity as a function of the DEM *)

Lemma sum_bin_terms_finite (gs ds ws : list R) :
  sum (map bin_term (combine (combine (map Fin gs) ds) ws))
  = Fin (Rsum (map (fun t => fst (fst t) * snd (fst t) * snd t)
                   (combine (combine gs ds) ws))).
Proof.
  unfold sum, Rsum. revert ds ws.
  induction gs as [|g gs IH]; intros ds ws; [reflexivity|].
  destruct ds as [|d ds]; [reflexivity|].
  destruct ws as [|w ws]; [reflexivity|].
  cbn [map combine fold_right fst snd]. rewrite IH. reflexivity.
Qed.

(** The predicted intensity when the binned contribution function holds
    real numbers only. *)
Lemma I_pred_finite (line : EmissionLine.t) (dem : BinnedDEM)
  (gs : list R) (ug : Unit) (s : ContFunc.t) :
  ContFunc.binned (temp_bins dem) (EmissionLine.cont_func line)
  = (Ok (mkQuantity (map Fin gs) ug), s) ->
  length (value (Dem.values dem)) = n_bins (temp_bins dem) ->
  dims (umul (umul ug (unit (Dem.values dem))) (unit (edges (temp_bins dem))))
  = dims dimensionless_unscaled ->
  EmissionLine.I_pred dem line
  = (Ok (Fin (Rsum (map (fun t => fst (fst t) * snd (fst t) * snd t)
                        (combine (combine gs (value (Dem.values dem)))
                                 (diff (value (edges (temp_bins dem))))))
              * factor (umul (umul ug (unit (Dem.values dem)))
                             (unit (edges (temp_bins dem))))
                       dimensionless_unscaled)),
     line).
Proof.
  intros Hb Hd Hu.
  rewrite (I_pred_after_binned line dem _ s Hb Hd).
  rewrite (to_value_ok _ dimensionless_unscaled) by exact Hu.
  cbn [value unit bin_widths product_unit].
  rewrite sum_bin_terms_finite. reflexivity.
Qed.

Lemma weighted_sum_linear (gs d1 d2 ws : list R) (a b : R) :
  length d1 = length d2 ->
  Rsum (map (fun t => fst (fst t) * snd (fst t) * snd t)
            (combine (combine gs (map (fun p => a * fst p + b * snd p)
                                      (combine d1 d2)))
                     ws))
  = a * Rsum (map (fun t => fst (fst t) * snd (fst t) * snd t)
                  (combine (combine gs d1) ws))
    + b * Rsum (map (fun t => fst (fst t) * snd (fst t) * snd t)
                    (combine (combine gs d2) ws)).
Proof.
  unfold Rsum. revert d1 d2 ws.
  induction gs as [|g gs IH]; intros d1 d2 ws Hl; [simpl; lra|].
  destruct d1 as [|x d1], d2 as [|y d2]; try discriminate; [simpl; lra|].
  destruct ws as [|w ws]; [simpl; lra|].
  cbn [map combine fold_right fst snd].
  rewrite IH by (simpl in Hl; lia). lra.
Qed.

(** The predicted intensity is linear in the DEM: on one grid and in one
    unit, the intensity predicted for the DEM [a * d1 + b * d2] is [a] times
    the one predicted for [d1] plus [b] times the one predicted for [d2]
    (the binned contribution function holding real numbers). *)
Theorem I_pred_linear_in_dem
  (line : EmissionLine.t) (tb : TempBins) (gs : list R) (ug u : Unit)
  (s : ContFunc.t) (d1 d2 : list R) (a b : R) :
  ContFunc.binned tb (EmissionLine.cont_func line)
  = (Ok (mkQuantity (map Fin gs) ug), s) ->
  length d1 = n_bins tb ->
  length d2 = n_bins tb ->
  dims (umul (umul ug u) (unit (edges tb))) = dims dimensionless_unscaled ->
  exists r1 r2 : R,
    EmissionLine.I_pred (mkBinnedDEM tb (mkQuantity d1 u)) line
    = (Ok (Fin r1), line)
    /\ EmissionLine.I_pred (mkBinnedDEM tb (mkQuantity d2 u)) line
       = (Ok (Fin r2), line)
    /\ EmissionLine.I_pred
         (mkBinnedDEM tb (mkQuantity (map (fun p => a * fst p + b * snd p)
                                          (combine d1 d2)) u))
         line
       = (Ok (Fin (a * r1 + b * r2)), line).
Proof.
  intros Hb H1 H2 Hu. do 2 eexists. split; [|split].
  - apply (I_pred_finite line (mkBinnedDEM tb (mkQuantity d1 u)) gs ug s);
      assumption.
  - apply (I_pred_finite line (mkBinnedDEM tb (mkQuantity d2 u)) gs ug s);
      assumption.
  - rewrite (I_pred_finite line
               (mkBinnedDEM tb (mkQuantity (map (fun p => a * fst p + b * snd p)
                                                (combine d1 d2)) u))
               gs ug s Hb).
    + cbn [temp_bins Dem.values value unit].
      rewrite weighted_sum_linear by congruence.
      do 3 f_equal. ring.
    + cbn [temp_bins Dem.values value].
      rewrite length_map, length_combine, H1, H2. apply Nat.min_id.
    + exact Hu.
Qed.

Lemma ex_constant_binned_finite :
  ContFunc.binned ex_grid_unit (EmissionLine.cont_func ex_line)
  = (Ok (mkQuantity (map Fin [7; 7]) cm5_per_K), ContFunc.Discrete ex_constant).
Proof. exact ex_constant_binned. Qed.

Lemma I_pred_linear_in_dem_example :
  exists r1 r2 : R,
    EmissionLine.I_pred ex_dem ex_line = (Ok (Fin r1), ex_line)
    /\ EmissionLine.I_pred ex_dem_other ex_line = (Ok (Fin r2), ex_line)
    /\ EmissionLine.I_pred
         (mkBinnedDEM ex_grid_unit
            (mkQuantity (map (fun p => 3 * fst p + 5 * snd p)
                             (combine [2; 2] [1; 3])) (upow cm (-5))))
         ex_line
       = (Ok (Fin (3 * r1 + 5 * r2)), ex_line).
Proof.
  exact (I_pred_linear_in_dem ex_line ex_grid_unit [7; 7] cm5_per_K
           (upow cm (-5)) _ [2; 2] [1; 3] 3 5
           ex_constant_binned_finite eq_refl eq_refl eq_refl).
Defined.

Lemma sorted_diff_positive (es : list R) :
  StronglySorted Rlt es -> Forall (fun w => 0 < w) (diff es).
Proof.
  induction es as [|a [|b t] IH]; intros HS; try constructor.
  - apply StronglySorted_inv in HS. destruct HS as [_ HF].
    apply Forall_inv in HF. lra.
  - apply IH. apply StronglySorted_inv in HS. tauto.
Qed.

Lemma weighted_sum_nonnegative (gs ds ws : list R) :
  Forall (fun g => 0 <= g) gs ->
  Forall (fun d => 0 <= d) ds ->
  Forall (fun w => 0 < w) ws ->
  0 <= Rsum (map (fun t => fst (fst t) * snd (fst t) * snd t)
                 (combine (combine gs ds) ws)).
Proof.
  unfold Rsum. intros Hg. revert ds ws.
  induction Hg as [|g gs Hg0 _ IH]; intros ds ws Hd Hw; [simpl; lra|].
  destruct Hd as [|d ds Hd0 Hd]; [simpl; lra|].
  destruct Hw as [|w ws Hw0 Hw]; [simpl; lra|].
  cbn [map combine fold_right fst snd].
  specialize (IH ds ws Hd Hw).
  assert (0 <= g * d * w) by (apply Rmult_le_pos; [apply Rmult_le_pos|]; lra).
  lra.
Qed.

(** A DEM without negative values never gives a negative intensity: on a
    well-formed grid, when the binned contribution function holds
    nonnegative real numbers and every DEM value is nonnegative, [I_pred]
    returns a real number that is not negative. *)
Theorem I_pred_nonnegative
  (line : EmissionLine.t) (dem : BinnedDEM) (gs : list R) (ug : Unit)
  (s : ContFunc.t) :
  ContFunc.binned (temp_bins dem) (EmissionLine.cont_func line)
  = (Ok (mkQuantity (map Fin gs) ug), s) ->
  well_formed (temp_bins dem) ->
  length (value (Dem.values dem)) = n_bins (temp_bins dem) ->
  dims (umul (umul ug (unit (Dem.values dem))) (unit (edges (temp_bins dem))))
  = dims dimensionless_unscaled ->
  Forall (fun g => 0 <= g) gs ->
  Forall (fun d => 0 <= d) (value (Dem.values dem)) ->
  exists r : R,
    EmissionLine.I_pred dem line = (Ok (Fin r), line) /\ 0 <= r.
Proof.
  intros Hb Hwf Hd Hu Hg Hdem. eexists. split.
  - apply (I_pred_finite line dem gs ug s); assumption.
  - apply Rmult_le_pos; [|apply Rlt_le, factor_pos].
    apply weighted_sum_nonnegative; [exact Hg | exact Hdem |].
    apply sorted_diff_positive. destruct Hwf as (_ & _ & HS). exact HS.
Qed.

Lemma I_pred_nonnegative_example :
  exists r : R,
    EmissionLine.I_pred ex_dem ex_line = (Ok (Fin r), ex_line) /\ 0 <= r.
Proof.
  apply (I_pred_nonnegative ex_line ex_dem [7; 7] cm5_per_K _
                            ex_constant_binned_finite).
  - split; [reflexivity|]. split; [discriminate|].
    simpl. repeat constructor; lra.
  - reflexivity.
  - reflexivity.
  - repeat constructor; lra.
  - simpl. repeat constructor; lra.
Defined.

(** ** The shape of the DEM *)

Lemma multiply_single_r (xs : list fval) (y : fval) :
  multiply xs [y] = Ok (map (fun x => fmul x y) xs).
Proof.
  destruct xs as [|x1 [|x2 xs]]; reflexivity.
Qed.

Lemma multiply_repeat_r (xs : list fval) (y : fval) :
  multiply xs (repeat y (length xs)) = Ok (map (fun x => fmul x y) xs).
Proof.
  rewrite multiply_same_length by (rewrite repeat_length; reflexivity).
  f_equal. induction xs as [|x xs IH]; [reflexivity|].
  cbn [length repeat combine map fst snd]. rewrite IH. reflexivity.
Qed.

Lemma multiply_mismatch (xs ys : list fval) :
  length xs <> length ys -> length xs <> 1%nat -> length ys <> 1%nat ->
  multiply xs ys = Err (ValueError_broadcast (length xs) (length ys)).
Proof.
  intros H H1 H2. unfold multiply.
  apply Nat.eqb_neq in H. rewrite H.
  destruct xs as [|x1 [|x2 xs]], ys as [|y1 [|y2 ys]];
    simpl in *; try congruence; reflexivity.
Qed.

(** numpy's broadcasting decides what [I_pred] does with a DEM that does
    not hold one value per bin.  A DEM holding a single value is taken as
    that value in every bin.  A DEM holding several values, but not as many
    as the grid has bins, makes [I_pred] raise the shape error of the first
    product, unless the grid has exactly one bin. *)
Theorem I_pred_dem_shape
  (line : EmissionLine.t) (dem : BinnedDEM) (g : Quantity (list fval))
  (s : ContFunc.t) :
  ContFunc.binned (temp_bins dem) (EmissionLine.cont_func line) = (Ok g, s) ->
  (forall d : R,
      value (Dem.values dem) = [d] ->
      EmissionLine.I_pred dem line
      = EmissionLine.I_pred
          (mkBinnedDEM (temp_bins dem)
                       (mkQuantity (repeat d (n_bins (temp_bins dem)))
                                   (unit (Dem.values dem))))
          line)
  /\ (length (value (Dem.values dem)) <> n_bins (temp_bins dem) ->
      length (value (Dem.values dem)) <> 1%nat ->
      n_bins (temp_bins dem) <> 1%nat ->
      EmissionLine.I_pred dem line
      = (Err (ValueError_broadcast (n_bins (temp_bins dem))
                                   (length (value (Dem.values dem)))),
         line)).
Proof.
  intros Hb.
  destruct (contfunc_binned_ok _ _ _ _ Hb) as (_ & _ & Hg).
  split.
  - intros d Hd. rewrite !I_pred_run. cbn [temp_bins]. rewrite Hb.
    cbn [fst and_then]. unfold mul.
    cbn [as_float value unit Dem.values]. rewrite Hd. cbn [map].
    rewrite multiply_single_r. rewrite <- Hg, map_repeat, multiply_repeat_r.
    reflexivity.
  - intros H1 H2 H3. rewrite I_pred_run, Hb. cbn [fst and_then].
    unfold mul at 1. cbn [as_float value].
    rewrite multiply_mismatch
      by (rewrite ?length_map; congruence).
    cbn [and_then]. rewrite length_map, Hg. reflexivity.
Qed.

Lemma I_pred_dem_shape_example :
  EmissionLine.I_pred ex_dem_single ex_line
  = EmissionLine.I_pred ex_dem ex_line
  /\ EmissionLine.I_pred ex_dem_three ex_line
     = (Err (ValueError_broadcast 2 3), ex_line).
Proof.
  split.
  - exact (proj1 (I_pred_dem_shape ex_line ex_dem_single _ _
                                   ex_constant_binned) 2 eq_refl).
  - apply (proj2 (I_pred_dem_shape ex_line ex_dem_three _ _
                                   ex_constant_binned)); discriminate.
Defined.

(** ** Binning a table on its own sample points *)

Lemma sorted_nth_increasing (es : list R) (i j : nat) :
  StronglySorted Rlt es ->
  (i < j)%nat -> (j < length es)%nat ->
  nth i es 0 < nth j es 0.
Proof.
  revert i j. induction es as [|a t IH]; intros i j HS Hij Hj;
    [simpl in Hj; lia|].
  apply StronglySorted_inv in HS. destruct HS as [HS HF].
  destruct j as [|j]; [lia|]. simpl in Hj.
  destruct i as [|i]; cbn [nth].
  - rewrite Forall_forall in HF. apply HF. apply nth_In. lia.
  - apply IH; [exact HS | lia | lia].
Qed.

Lemma in_bin_of_edge (es : list R) (k i : nat) :
  StronglySorted Rlt es ->
  (S k < length es)%nat -> (i < length es)%nat ->
  in_bin es k (nth i es 0) = ((i =? S k) || ((k =? 0) && (i =? 0)))%nat.
Proof.
  intros HS Hk Hi.
  destruct (in_bin es k (nth i es 0)) eqn:B.
  - apply in_bin_spec in B. symmetry. apply orb_true_iff.
    destruct B as [[H1 H2] | [-> H0]].
    + left. apply Nat.eqb_eq.
      destruct (Nat.lt_trichotomy i (S k)) as [L | [E | G]]; [|exact E|].
      * destruct (Nat.eq_dec i k) as [->|N]; [lra|].
        pose proof (sorted_nth_increasing es i k HS ltac:(lia) ltac:(lia)).
        lra.
      * pose proof (sorted_nth_increasing es (S k) i HS G Hi). lra.
    + destruct i as [|i]; [right; reflexivity|].
      pose proof (sorted_nth_increasing es 0 (S i) HS ltac:(lia) Hi). lra.
  - symmetry. apply orb_false_iff. split.
    + apply Nat.eqb_neq. intros ->.
      assert (in_bin es k (nth (S k) es 0) = true); [|congruence].
      apply in_bin_spec. left.
      pose proof (sorted_nth_increasing es k (S k) HS ltac:(lia) Hk). lra.
    + apply andb_false_iff.
      destruct k as [|k]; [|left; reflexivity].
      destruct i as [|i]; [|right; reflexivity].
      assert (in_bin es 0 (nth 0 es 0) = true); [|congruence].
      apply in_bin_spec. right. auto.
Qed.

Lemma combine_as_map_seq (es vs : list R) :
  length es = length vs ->
  combine es vs
  = map (fun i => (nth i es 0, nth i vs 0)) (seq 0 (length es)).
Proof.
  revert vs. induction es as [|e es IH]; intros [|v vs] H;
    try discriminate; [reflexivity|].
  cbn [combine length seq map nth]. f_equal.
  rewrite <- seq_shift, map_map. apply IH. simpl in H. lia.
Qed.

Lemma filter_map_swap {A B} (p : B -> bool) (f : A -> B) (l : list A) :
  filter p (map f l) = map f (filter (fun x => p (f x)) l).
Proof.
  induction l as [|a l IH]; [reflexivity|].
  cbn [map filter]. destruct (p (f a)); cbn [map]; rewrite IH; reflexivity.
Qed.

Lemma filter_seq_one (m s n : nat) :
  filter (fun i => (i =? m)%nat) (seq s n)
  = if ((s <=? m) && (m <? s + n))%nat then [m] else [].
Proof.
  revert s. induction n as [|n IH]; intros s.
  - cbn [seq filter].
    destruct (s <=? m)%nat eqn:E1, (m <? s + 0)%nat eqn:E2; try reflexivity.
    apply Nat.leb_le in E1. apply Nat.ltb_lt in E2. lia.
  - cbn [seq filter]. rewrite IH.
    destruct (s =? m)%nat eqn:E.
    + apply Nat.eqb_eq in E. subst s.
      replace (S m <=? m)%nat with false by (symmetry; apply Nat.leb_gt; lia).
      replace (m <=? m)%nat with true by (symmetry; apply Nat.leb_le; lia).
      replace (m <? m + S n)%nat with true by (symmetry; apply Nat.ltb_lt; lia).
      reflexivity.
    + apply Nat.eqb_neq in E.
      destruct (S s <=? m)%nat eqn:E1, (s <=? m)%nat eqn:E2;
        destruct (m <? S s + n)%nat eqn:E3, (m <? s + S n)%nat eqn:E4;
        try reflexivity;
        repeat match goal with
               | H : (_ <=? _)%nat = true |- _ => apply Nat.leb_le in H
               | H : (_ <=? _)%nat = false |- _ => apply Nat.leb_gt in H
               | H : (_ <? _)%nat = true |- _ => apply Nat.ltb_lt in H
               | H : (_ <? _)%nat = false |- _ => apply Nat.ltb_ge in H
               end; lia.
Qed.

Lemma bin_values_on_own_grid (es vs : list R) (k : nat) :
  StronglySorted Rlt es ->
  length es = length vs ->
  (S k < length es)%nat ->
  bin_values es (combine es vs) k
  = match k with
    | O => [nth 0 vs 0; nth 1 vs 0]
    | S _ => [nth (S k) vs 0]
    end.
Proof.
  intros HS Hl Hk. unfold bin_values.
  rewrite (combine_as_map_seq es vs Hl), filter_map_swap, map_map.
  cbn [fst snd].
  rewrite (filter_ext_in _ (fun i => (i =? S k) || ((k =? 0) && (i =? 0)))%nat).
  2:{ intros i Hi. apply in_seq in Hi.
      apply in_bin_of_edge; [exact HS | exact Hk | lia]. }
  destruct k as [|k].
  - destruct es as [|e0 [|e1 es]]; simpl in Hk; try lia.
    cbn [length seq filter Nat.eqb orb andb map].
    rewrite (filter_ext_in _ (fun i => (i =? 1)%nat)).
    2:{ intros i Hi. apply in_seq in Hi.
        destruct i as [|i]; [lia|]. cbn [Nat.eqb andb].
        apply orb_false_r. }
    rewrite filter_seq_one.
    replace ((2 <=? 1) && (1 <? 2 + length es))%nat with false by reflexivity.
    reflexivity.
  - rewrite (filter_ext _ (fun i => (i =? S (S k))%nat))
      by (intros i; apply orb_false_r).
    rewrite filter_seq_one.
    replace ((0 <=? S (S k)) && (S (S k) <? 0 + length es))%nat with true
      by (symmetry; apply andb_true_iff; split;
          [reflexivity | apply Nat.ltb_lt; lia]).
    reflexivity.
Qed.

(** Binning a table written in K on the grid, in K, made of its own sample
    points does not give the table back: every bin holds only its upper
    edge, so its value is the tabulated value at that edge, except the
    first bin, which also holds the lowest sample point and gets the mean
    of the first two tabulated values.  The tabulated value at the lowest
    sample point appears nowhere on its own. *)
Theorem discrete_binned_on_own_grid_in_K
  (cf : ContFuncDiscrete.t) (tb : TempBins) :
  ContFuncDiscrete.__init__ (ContFuncDiscrete.temps cf)
                            (ContFuncDiscrete.values cf) = Ok cf ->
  unit (ContFuncDiscrete.temps cf) = K ->
  unit (edges tb) = K ->
  dims (unit (ContFuncDiscrete.values cf)) = dims cm5_per_K ->
  well_formed tb ->
  edges_K tb = magnitudes_in (ContFuncDiscrete.temps cf) K ->
  let v := fun i =>
             nth i (magnitudes_in (ContFuncDiscrete.values cf) cm5_per_K) 0 in
  exists out : list fval,
    ContFuncDiscrete.binned tb cf = (Ok (mkQuantity out cm5_per_K), cf)
    /\ length out = n_bins tb
    /\ ((0 < n_bins tb)%nat -> nth 0 out NaN = Fin ((v 0%nat + v 1%nat) / 2))
    /\ forall k, (0 < k < n_bins tb)%nat -> nth k out NaN = Fin (v (S k)).
Proof.
  intros Hinit HtK _ Hv Hwf He v.
  assert (Ht : dims (unit (ContFuncDiscrete.temps cf)) = dims K)
    by (rewrite HtK; reflexivity).
  destruct (well_formed_edges_K tb Hwf) as (b0 & bs & Hes & HS).
  rewrite <- Hes in HS.
  assert (Hm : ContFuncDiscrete.missing_edges (ContFuncDiscrete.temps cf)
                                              (iter (edges tb)) = []).
  { apply no_missing_edges. intros t Hin.
    unfold iter in Hin. apply in_map_iff in Hin.
    destruct Hin as (r & <- & Hr).
    apply contains_spec. cbn [value unit].
    split; [destruct Hwf as [HT _]; congruence|].
    assert (Hin : In (r * factor (unit (edges tb)) K)
                     (magnitudes_in (ContFuncDiscrete.temps cf) K)).
    { rewrite <- He. unfold edges_K.
      apply (in_map (fun x => x * factor (unit (edges tb)) K)). exact Hr. }
    unfold magnitudes_in in Hin. apply in_map_iff in Hin.
    destruct Hin as (x & Ex & Hx).
    rewrite <- (factor_compose (unit (edges tb))
                               (unit (ContFuncDiscrete.temps cf)) K) in Ex.
    pose proof (factor_pos (unit (ContFuncDiscrete.temps cf)) K) as Hpos.
    assert (x = r * factor (unit (edges tb))
                           (unit (ContFuncDiscrete.temps cf))) by nra.
    subst x. exact Hx. }
  assert (Hlen : length (edges_K tb)
                 = length (magnitudes_in (ContFuncDiscrete.values cf)
                                         cm5_per_K)).
  { rewrite He. apply init_sizes. exact Hinit. }
  assert (Hnth : forall k, (k < n_bins tb)%nat ->
            nth k (map (fun k => mean (bin_values (edges_K tb) (samples cf) k))
                       (seq 0 (n_bins tb))) NaN
            = mean (match k with
                    | O => [v 0%nat; v 1%nat]
                    | S _ => [v (S k)]
                    end)).
  { intros k Hk.
    set (f := fun k => mean (bin_values (edges_K tb) (samples cf) k)).
    rewrite (nth_indep _ NaN (f 0%nat))
      by (rewrite length_map, length_seq; exact Hk).
    rewrite (map_nth f), seq_nth by exact Hk. cbn [Nat.add].
    unfold f, samples. rewrite <- He.
    rewrite (bin_values_on_own_grid _ _ k HS Hlen)
      by (rewrite length_edges_K; unfold n_bins in Hk; lia).
    reflexivity. }
  eexists. split; [apply discrete_binned_sorted; assumption|].
  split; [rewrite length_map, length_seq; reflexivity|].
  split.
  - intros H0. rewrite (Hnth 0%nat H0). unfold mean, Rsum. simpl.
    f_equal. lra.
  - intros k [Hk0 Hk]. rewrite (Hnth k Hk).
    destruct k as [|k]; [lia|]. unfold mean, Rsum. simpl. f_equal. lra.
Qed.

Lemma discrete_binned_on_own_grid_example :
  exists out : list fval,
    ContFuncDiscrete.binned ex_grid_own ex_discrete
    = (Ok (mkQuantity out cm5_per_K), ex_discrete)
    /\ length out = 4%nat
    /\ nth 0 out NaN = Fin 15
    /\ nth 1 out NaN = Fin 30
    /\ nth 3 out NaN = Fin 50.
Proof.
  destruct (discrete_binned_on_own_grid_in_K ex_discrete ex_grid_own)
    as (out & Hrun & Hlen & H0 & Hk).
  - reflexivity.
  - reflexivity.
  - reflexivity.
  - reflexivity.
  - split; [reflexivity|]. split; [discriminate|].
    simpl. repeat constructor; lra.
  - reflexivity.
  - exists out. split; [exact Hrun|]. split; [exact Hlen|].
    split; [|split].
    + rewrite H0 by (unfold n_bins; simpl; lia).
      unfold magnitudes_in, factor. simpl. f_equal. lra.
    + rewrite (Hk 1%nat) by (unfold n_bins; simpl; lia).
      unfold magnitudes_in, factor. simpl. f_equal. lra.
    + rewrite (Hk 3%nat) by (unfold n_bins; simpl; lia).
      unfold magnitudes_in, factor. simpl. f_equal. lra.
Defined.

(** ** The predicted intensity of a Gaussian line *)

Lemma weighted_sum_upper (gs ds ws : list R) (M : R) :
  0 <= M ->
  Forall (fun g => g <= M) gs ->
  Forall (fun d => 0 <= d) ds ->
  Forall (fun w => 0 < w) ws ->
  Rsum (map (fun t => fst (fst t) * snd (fst t) * snd t)
            (combine (combine gs ds) ws))
  <= M * Rsum (map (fun p => fst p * snd p) (combine ds ws)).
Proof.
  unfold Rsum. intros HM Hg. revert ds ws.
  assert (Hpos : forall ds ws,
             Forall (fun d => 0 <= d) ds -> Forall (fun w => 0 < w) ws ->
             0 <= fold_right Rplus 0
                    (map (fun p => fst p * snd p) (combine ds ws))).
  { intros ds ws Hd. revert ws.
    induction Hd as [|d ds Hd0 _ IH]; intros ws Hw; [simpl; lra|].
    destruct Hw as [|w ws Hw0 Hw]; [simpl; lra|].
    cbn [map combine fold_right fst snd]. specialize (IH ws Hw). nra. }
  induction Hg as [|g gs Hg0 _ IH]; intros ds ws Hd Hw.
  - cbn [combine map fold_right]. specialize (Hpos ds ws Hd Hw). nra.
  - destruct Hd as [|d ds Hd0 Hd]; [simpl; lra|].
    destruct Hw as [|w ws Hw0 Hw]; [simpl; lra|].
    cbn [map combine fold_right fst snd].
    specialize (IH ds ws Hd Hw).
    cbn beta in Hg0, Hd0, Hw0.
    assert (Hdw : 0 <= d * w) by (apply Rmult_le_pos; lra).
    assert (g * d * w <= M * (d * w)).
    { rewrite Rmult_assoc. apply Rmult_le_compat_r; assumption. }
    lra.
Qed.

(** For a line with a Gaussian contribution function of nonzero width, a
    well-formed grid and a DEM without negative values, the predicted
    intensity is a real number between 0 and 1e6 times the integral of the
    DEM over the grid, the sum of DEM value times bin width (both after
    the scale of the units). *)
Theorem I_pred_gaussian_bounds
  (line : EmissionLine.t) (dem : BinnedDEM) (g : ContFuncGaussian.t) :
  EmissionLine.cont_func line = ContFunc.Gaussian g ->
  ContFuncGaussian._width_MK g <> 0 ->
  well_formed (temp_bins dem) ->
  length (value (Dem.values dem)) = n_bins (temp_bins dem) ->
  dims (umul (umul cm5_per_K (unit (Dem.values dem)))
             (unit (edges (temp_bins dem))))
  = dims dimensionless_unscaled ->
  Forall (fun d => 0 <= d) (value (Dem.values dem)) ->
  let k := factor (umul (umul cm5_per_K (unit (Dem.values dem)))
                        (unit (edges (temp_bins dem))))
                  dimensionless_unscaled in
  exists r : R,
    EmissionLine.I_pred dem line = (Ok (Fin r), line)
    /\ 0 <= r
    /\ r <= 1e6 * Rsum (map (fun p => fst p * snd p)
                            (combine (value (Dem.values dem))
                                     (diff (value (edges (temp_bins dem))))))
            * k.
Proof.
  intros Hcf Hw Hwf Hd Hu Hdem k.
  destruct Hwf as (HT & Hne & HS).
  destruct (gaussian_binned_finite g (temp_bins dem) Hw HT)
    as (vs & Hrun & _ & Hvs).
  assert (Hb : ContFunc.binned (temp_bins dem) (EmissionLine.cont_func line)
               = (Ok (mkQuantity (map Fin vs) cm5_per_K), ContFunc.Gaussian g)).
  { rewrite Hcf. unfold ContFunc.binned. rewrite Hrun. reflexivity. }
  pose proof (factor_pos (umul (umul cm5_per_K (unit (Dem.values dem)))
                               (unit (edges (temp_bins dem))))
                         dimensionless_unscaled) as Hk.
  fold k in Hk.
  pose proof (sorted_diff_positive _ HS) as Hwd.
  eexists. split; [|split].
  - apply (I_pred_finite line dem vs cm5_per_K _ Hb Hd Hu).
  - fold k. apply Rmult_le_pos; [|lra].
    apply weighted_sum_nonnegative; [|exact Hdem | exact Hwd].
    apply Forall_forall. intros v Hv. rewrite Forall_forall in Hvs.
    apply Hvs in Hv. lra.
  - fold k. apply Rmult_le_compat_r; [lra|].
    apply weighted_sum_upper; [lra | | exact Hdem | exact Hwd].
    apply Forall_forall. intros v Hv. rewrite Forall_forall in Hvs.
    apply Hvs in Hv. lra.
Qed.

Lemma I_pred_gaussian_bounds_example :
  exists r : R,
    EmissionLine.I_pred ex_dem_MK ex_line_gaussian
    = (Ok (Fin r), ex_line_gaussian)
    /\ 0 <= r
    /\ r <= 1e6 * Rsum (map (fun p => fst p * snd p)
                            (combine [2; 2] (diff [1; 3; 5])))
            * factor (umul (umul cm5_per_K (upow cm (-5))) MK)
                     dimensionless_unscaled.
Proof.
  apply (I_pred_gaussian_bounds ex_line_gaussian ex_dem_MK ex_gaussian).
  - reflexivity.
  - unfold ex_gaussian, scale_by, Scalable_R, factor. simpl. lra.
  - split; [reflexivity|]. split; [discriminate|].
    simpl. repeat constructor; lra.
  - reflexivity.
  - reflexivity.
  - simpl. repeat constructor; lra.
Defined.

(** * The discrete contribution function on binary64 numbers *)

(** ** The edge check *)

Lemma missing_edges_filter64 (temps : Quantity Binary64.ndarray)
  (ts : list (Quantity float)) :
  Binary64.ContFuncDiscrete.missing_edges temps ts
  = filter (fun t => negb (Binary64.contains temps t)) ts.
Proof.
  induction ts as [|t rest IH]; simpl; [reflexivity|].
  rewrite IH. reflexivity.
Qed.

Lemma discrete_check_run64 (cf : Binary64.ContFuncDiscrete.t)
  (tb : Binary64.TempBins) :
  Binary64.ContFuncDiscrete._check_bin_edges tb cf
  = (match Binary64.ContFuncDiscrete.missing_edges
             (Binary64.ContFuncDiscrete.temps cf)
             (Binary64.iter (Binary64.edges tb)) with
     | [] => Ok tt
     | missing_ts => Err (ValueError_missing_bin_edges_binary64 missing_ts)
     end, cf).
Proof.
  unfold Binary64.ContFuncDiscrete._check_bin_edges, bind, getattr.
  destruct (Binary64.ContFuncDiscrete.missing_edges _ _); reflexivity.
Qed.

(** What a call of [binned] amounts to: the instance is handed back as it
    was. *)
Lemma discrete_binned_run64 (observed : bool)
  (cf : Binary64.ContFuncDiscrete.t) (tb : Binary64.TempBins) :
  Binary64.ContFuncDiscrete.binned observed tb cf
  = (match Binary64.ContFuncDiscrete.missing_edges
             (Binary64.ContFuncDiscrete.temps cf)
             (Binary64.iter (Binary64.edges tb)) with
     | [] =>
         and_then (Binary64.to_value (Binary64.ContFuncDiscrete.temps cf) K)
           (fun temps_K =>
         and_then (Binary64.to_value (Binary64.ContFuncDiscrete.values cf)
                                     cm5_per_K) (fun vals =>
         and_then (Binary64.DataFrame temps_K vals) (fun df =>
         and_then (Binary64.to_value_list (Binary64.edges tb) K) (fun es =>
         and_then (Binary64.cut (map fst df) es) (fun groups =>
         Ok (mkQuantity (Binary64.groupby_mean observed (length es - 1)
                                               groups (map snd df))
                        cm5_per_K))))))
     | missing_ts => Err (ValueError_missing_bin_edges_binary64 missing_ts)
     end, cf).
Proof.
  unfold Binary64.ContFuncDiscrete.binned, bind.
  rewrite discrete_check_run64.
  destruct (Binary64.ContFuncDiscrete.missing_edges _ _); [|reflexivity].
  unfold getattr, lift, ret, and_then.
  destruct (Binary64.to_value (Binary64.ContFuncDiscrete.temps cf) K);
    [|reflexivity].
  destruct (Binary64.to_value (Binary64.ContFuncDiscrete.values cf) cm5_per_K);
    [|reflexivity].
  destruct (Binary64.DataFrame _ _); [|reflexivity].
  destruct (Binary64.to_value_list (Binary64.edges tb) K); [|reflexivity].
  destruct (Binary64.cut _ _); reflexivity.
Qed.

Lemma contains_spec64 (arr : Quantity Binary64.ndarray) (t : Quantity float) :
  Binary64.contains arr t = true
  <-> dims (unit t) = dims (unit arr)
      /\ exists x, In x (Binary64.data (value arr))
                   /\ (x =? Binary64.convert (unit t) (unit arr) (value t))%float
                      = true.
Proof.
  unfold Binary64.contains, Binary64.to_value_scalar.
  destruct (dim_eqb (dims (unit t)) (dims (unit arr))) eqn:D.
  - apply dim_eqb_eq in D. rewrite existsb_exists. tauto.
  - split; [discriminate|]. intros [E _].
    apply dim_eqb_eq in E. congruence.
Qed.

(** Past the edge check, no step of [binned] raises the missing-edge
    error. *)
Lemma binned_after_check_not_missing64 (observed : bool)
  (cf : Binary64.ContFuncDiscrete.t) (tb : Binary64.TempBins)
  (l : list (Quantity float)) :
  and_then (Binary64.to_value (Binary64.ContFuncDiscrete.temps cf) K)
    (fun temps_K =>
  and_then (Binary64.to_value (Binary64.ContFuncDiscrete.values cf)
                              cm5_per_K) (fun vals =>
  and_then (Binary64.DataFrame temps_K vals) (fun df =>
  and_then (Binary64.to_value_list (Binary64.edges tb) K) (fun es =>
  and_then (Binary64.cut (map fst df) es) (fun groups =>
  Ok (mkQuantity (Binary64.groupby_mean observed (length es - 1)
                                        groups (map snd df))
                 cm5_per_K))))))
  <> Err (ValueError_missing_bin_edges_binary64 l).
Proof.
  unfold and_then.
  destruct (Binary64.to_value (Binary64.ContFuncDiscrete.temps cf) K)
    as [tk|e] eqn:E1;
    [|unfold Binary64.to_value in E1; destruct (dim_eqb _ _); congruence].
  destruct (Binary64.to_value (Binary64.ContFuncDiscrete.values cf) cm5_per_K)
    as [vk|e] eqn:E2;
    [|unfold Binary64.to_value in E2; destruct (dim_eqb _ _); congruence].
  destruct (Binary64.DataFrame tk vk) as [df|e] eqn:E3;
    [|unfold Binary64.DataFrame in E3; destruct (_ && _); congruence].
  destruct (Binary64.to_value_list (Binary64.edges tb) K) as [es|e] eqn:E4;
    [|unfold Binary64.to_value_list in E4; destruct (dim_eqb _ _); congruence].
  destruct (Binary64.cut (map fst df) es) as [g|e] eqn:E5; [discriminate|].
  unfold Binary64.cut in E5.
  destruct (existsb _ _); [congruence|].
  destruct (_ && _); [congruence|].
  destruct es; congruence.
Qed.

(** C3. On binary64 numbers and for either default of pandas, [binned] of a
    discrete contribution function raises the missing-edge error exactly
    when some edge of the grid is not among [temps]; the error then lists
    all the edges that are not among [temps], in grid order, and nothing
    else.  An edge is among [temps] when its magnitude, converted to the
    unit of [temps] in binary64, is equal as a binary64 number to one of
    the magnitudes of [temps].  With sample points 1..5 K and edges 1, 2.5,
    5 K the error names 2.5 K; with sample points 0.1, 0.2, 0.3 MK and
    edges 100000, 300000 K it names 100000 K, which the conversion takes to
    0.09999999999999999 MK. *)
Theorem discrete_binned_reports_all_missing_edges :
  (forall (observed : bool) (cf : Binary64.ContFuncDiscrete.t)
          (tb : Binary64.TempBins),
      let absent := fun t =>
        negb (Binary64.contains (Binary64.ContFuncDiscrete.temps cf) t) in
      ((exists l, fst (Binary64.ContFuncDiscrete.binned observed tb cf)
                  = Err (ValueError_missing_bin_edges_binary64 l))
       <-> (exists t, In t (Binary64.iter (Binary64.edges tb))
                      /\ Binary64.contains
                           (Binary64.ContFuncDiscrete.temps cf) t = false))
      /\ (forall l, fst (Binary64.ContFuncDiscrete.binned observed tb cf)
                    = Err (ValueError_missing_bin_edges_binary64 l) ->
                    l = filter absent (Binary64.iter (Binary64.edges tb)))
      /\ fst (Binary64.ContFuncDiscrete._check_bin_edges tb cf)
         = match filter absent (Binary64.iter (Binary64.edges tb)) with
           | [] => Ok tt
           | missing_ts => Err (ValueError_missing_bin_edges_binary64 missing_ts)
           end)
  /\ (forall (arr : Quantity Binary64.ndarray) (t : Quantity float),
        Binary64.contains arr t = true
        <-> dims (unit t) = dims (unit arr)
            /\ exists x,
                 In x (Binary64.data (value arr))
                 /\ (x =? Binary64.convert (unit t) (unit arr) (value t))%float
                    = true)
  /\ (forall observed,
        Binary64.ContFuncDiscrete.binned observed ex64_grid_missing ex64_discrete
        = (Err (ValueError_missing_bin_edges_binary64 [mkQuantity 2.5%float K]),
           ex64_discrete))
  /\ (forall observed,
        Binary64.ContFuncDiscrete.binned observed ex64_grid_tenths_K
                                         ex64_discrete_tenths_MK
        = (Err (ValueError_missing_bin_edges_binary64
                  [mkQuantity 100000%float K]),
           ex64_discrete_tenths_MK))
  /\ Binary64.convert K MK 100000 = 0.09999999999999999%float.
Proof.
  split; [|split; [|split; [|split]]].
  - intros observed cf tb absent.
    rewrite discrete_binned_run64, discrete_check_run64,
      missing_edges_filter64.
    simpl fst. fold absent.
    set (missing := filter absent _).
    assert (Hmem : forall t, In t missing
                   <-> In t (Binary64.iter (Binary64.edges tb))
                       /\ Binary64.contains
                            (Binary64.ContFuncDiscrete.temps cf) t = false).
    { intros t. unfold missing, absent.
      rewrite filter_In, negb_true_iff. tauto. }
    split; [|split].
    + split.
      * intros [l Hl]. destruct missing as [|t rest] eqn:M.
        -- exfalso. eapply binned_after_check_not_missing64. exact Hl.
        -- exists t. apply Hmem. left. reflexivity.
      * intros [t Ht]. apply Hmem in Ht.
        destruct missing as [|t0 rest]; [contradiction|].
        eexists. reflexivity.
    + intros l Hl. destruct missing as [|t rest].
      * exfalso. eapply binned_after_check_not_missing64. exact Hl.
      * congruence.
    + reflexivity.
  - exact contains_spec64.
  - intros []; vm_compute; reflexivity.
  - intros []; vm_compute; reflexivity.
  - vm_compute. reflexivity.
Qed.

(** ** Locating samples in the grid *)







(** With the pandas 3 default the output is never longer than the grid. *)
Lemma length_groupby_mean_observed64 (ncat : nat)
  (groups : list (option nat)) (vals : list float) :
  (length (Binary64.groupby_mean true ncat groups vals) <= ncat)%nat.
Proof.
  unfold Binary64.groupby_mean. rewrite length_map.
  etransitivity; [apply filter_length_le|].
  rewrite length_map, length_seq. lia.
Qed.



(** ** Empty bins *)




(** ** A table and a grid in different units *)


(** The outcome of [binned] depends on the units in which the table and the
    grid are written.  The table with sample points 0.1, 0.2, 0.3 MK and
    the grid with edges 0.1, 0.3 MK give the mean of the three values, and
    so do the same table and grid both written in K, and the table in K
    with the grid in MK; the table in MK with the grid in K raises the
    missing-edge error for 100000 K. *)
Theorem discrete_binned_depends_on_units (observed : bool) :
  Binary64.ContFuncDiscrete.binned observed ex64_grid_tenths_MK
                                   ex64_discrete_tenths_MK
  = (Ok (mkQuantity [20%float] cm5_per_K), ex64_discrete_tenths_MK)
  /\ Binary64.ContFuncDiscrete.binned observed ex64_grid_tenths_K
                                      ex64_discrete_tenths_K
     = (Ok (mkQuantity [20%float] cm5_per_K), ex64_discrete_tenths_K)
  /\ Binary64.ContFuncDiscrete.binned observed ex64_grid_tenths_K
                                      ex64_discrete_tenths_MK
     = (Err (ValueError_missing_bin_edges_binary64
               [mkQuantity 100000%float K]),
        ex64_discrete_tenths_MK)
  /\ Binary64.ContFuncDiscrete.binned observed ex64_grid_tenths_MK
                                      ex64_discrete_tenths_K
     = (Ok (mkQuantity [20%float] cm5_per_K), ex64_discrete_tenths_K).
Proof.
  destruct observed; repeat split; vm_compute; reflexivity.
Qed.
